(** * MaterialX OSL-nodes generator and the LibsToOso batch driver

    A shallow embedding of
    - [OslNodesShaderGenerator::generate] and [::createShader] in their two
      revisions (target "genoslnodes" and target "genosl"), and
    - the per-definition loop of [main] in [LibsToOso.cpp],
    together with the properties the specification states about them. *)

From Stdlib Require Import String Ascii List Bool Permutation Lia.
From stdpp Require Import base option list sorting gmap strings.
Import ListNotations.

Local Open Scope string_scope.
Local Open Scope list_scope.

(** ** Outcomes of C++ code

    A call either returns a value or runs into undefined behaviour by reading
    through a pointer that is null or was never assigned.  The fault records
    which pointer it was. *)

Inductive Fault :=
| NullNodeDef            (* [document->getNodeDef(..)] gave no definition *)
| NullInterfaceElement   (* [nodeDef->getImplementation(..)] gave nothing *)
| UninitialisedLastOutput (* [lastOutput] read before any assignment *)
| NullConnection.        (* [input->getConnection()] gave nothing *)

Inductive Outcome (A : Type) :=
| Returns (a : A)
| Undefined (f : Fault).
Arguments Returns {A} a.
Arguments Undefined {A} f.

Definition bindO {A B} (m : Outcome A) (k : A -> Outcome B) : Outcome B :=
  match m with
  | Returns a => k a
  | Undefined f => Undefined f
  end.

(** ** Data model *)

Record TypeDesc := { td_name : string }.

(** A typed literal; only the syntax object looks inside. *)
Record Value := { value_type : string; value_string : string }.

(** [Value::FloatFormat], the process-wide setting read when a value is
    turned into text. *)
Inductive FloatFormat := FloatFormatDefault | FloatFormatFixed | FloatFormatScientific.

Record World := { floatFormat : FloatFormat }.

(** The node a port belongs to: the graph itself (its interface sockets) or
    one of the graph's nodes. *)
Inductive PortOwner :=
| OwnerGraph
| OwnerNode (name : string).

Record ShaderOutput := {
  out_node : PortOwner;
  out_name : string;
  out_type : TypeDesc }.

Record ShaderInput := {
  in_name : string;
  in_type : TypeDesc;
  in_value : option Value;
  in_connection : option ShaderOutput;
  in_isDefault : bool }.

(** Modelled from the spec: the declaration of [ShaderNode] is not part of the
    sources at hand; a node has a unique name, an ordered list of inputs, a
    primary output ([getOutput(0)]) and the name of its node definition. *)
Record ShaderNode := {
  node_name : string;
  node_inputs : list ShaderInput;
  node_output0 : ShaderOutput;
  node_nodeDefName : string }.

Record ShaderGraphInputSocket := {
  isock_name : string;
  isock_type : TypeDesc;
  isock_connections : list (string * string) }.

Record ShaderGraphOutputSocket := {
  osock_name : string;
  osock_type : TypeDesc;
  osock_connection : option ShaderOutput }.

Record ShaderGraph := {
  graph_nodes : list ShaderNode;
  graph_inputSockets : list ShaderGraphInputSocket;
  graph_outputSockets : list ShaderGraphOutputSocket;
  graph_isEditable : ShaderGraphInputSocket -> bool }.

Inductive ShaderPort :=
| PortOfInputSocket (s : ShaderGraphInputSocket)
| PortOfOutputSocket (s : ShaderGraphOutputSocket).

(** A [VariableBlock] keeps its ports in insertion order. *)
Abbreviation VariableBlock := (list ShaderPort).

(** The uniform, input and output blocks of a stage, each found by name. *)
Record StageBlocks := {
  blocks_uniforms : gmap string VariableBlock;
  blocks_inputs : gmap string VariableBlock;
  blocks_outputs : gmap string VariableBlock }.

(** A stage: its blocks and the lines of text emitted into it so far. *)
Record ShaderStage := {
  stage_blocks : StageBlocks;
  stage_code : list string }.

Record Shader := {
  shader_name : string;
  shader_graph : ShaderGraph;
  shader_stage : ShaderStage;
  shader_attributes : gmap string string }.

(** ** The document *)

Record Implementation := {
  impl_function : string;
  impl_file : string }.

(** [NodeDef::getImplementation] hands out an [InterfaceElementPtr]; the
    generator narrows it with [asA<Implementation>()]. *)
Inductive InterfaceElement :=
| IsImplementation (i : Implementation)
| IsNodeGraph (name : string).

Definition asA_Implementation (e : InterfaceElement) : option Implementation :=
  match e with
  | IsImplementation i => Some i
  | IsNodeGraph _ => None
  end.

(** Modelled from the spec: [NodeDef] is declared outside the sources at hand;
    it is a catalog entry with a per-target map to its implementation. *)
Record NodeDef := {
  nd_name : string;
  nd_implementations : gmap string InterfaceElement }.

Definition getImplementation (nd : NodeDef) (target : string) : option InterfaceElement :=
  nd_implementations nd !! target.

Inductive DocChild :=
| ChildNodeDef (nd : NodeDef)
| ChildNode (name : string) (nodeDefName : string).

Definition child_name (c : DocChild) : string :=
  match c with
  | ChildNodeDef nd => nd_name nd
  | ChildNode n _ => n
  end.

(** Modelled from the spec: the document class is declared outside the sources
    at hand; it is an ordered catalog of children whose names are unique. *)
Definition Document := list DocChild.

Fixpoint getChild (doc : Document) (name : string) : option DocChild :=
  match doc with
  | [] => None
  | c :: rest => if String.eqb (child_name c) name then Some c else getChild rest name
  end.

Definition getNodeDef (doc : Document) (name : string) : option NodeDef :=
  match getChild doc name with
  | Some (ChildNodeDef nd) => Some nd
  | _ => None
  end.

Fixpoint getNodeDefs (doc : Document) : list NodeDef :=
  match doc with
  | [] => []
  | ChildNodeDef nd :: rest => nd :: getNodeDefs rest
  | ChildNode _ _ :: rest => getNodeDefs rest
  end.

Record Element := {
  elem_name : string;
  elem_document : Document }.

(** ** External collaborators *)

(** The syntax object [_syntax].  [makeValidName] rewrites its argument in
    place in the source; here it returns the rewritten name.  [getValue] reads
    the float format in effect. *)
Class Syntax := {
  makeValidName : string -> string;
  getTypeName : TypeDesc -> string;
  getValue : FloatFormat -> ShaderInput -> string }.

Record GenContext := {
  oslNodesConnectCiWrapper : bool;
  resolveSourceFile : string -> string }.

(** The graph layer: [ShaderGraph::create], and [createVariables], which adds
    the variables the nodes need to the blocks of the stage. *)
Class GraphLayer := {
  ShaderGraph_create : string -> Element -> GenContext -> ShaderGraph;
  createVariables : ShaderGraph -> GenContext -> StageBlocks -> StageBlocks }.

(** ** Stage text *)

Definition emitLine (str : string) (stage : ShaderStage) : ShaderStage :=
  {| stage_blocks := stage_blocks stage;
     stage_code := stage_code stage ++ [str] |}.

(** Every emitted line ends with a newline in the stage's buffer. *)
Definition getSourceCode (sh : Shader) : string :=
  String.concat "" (map (fun l => l +:+ "
") (stage_code (shader_stage sh))).

Definition is_param (l : string) : bool := String.prefix "param " l.
Definition is_shader (l : string) : bool := String.prefix "shader " l.
Definition is_connect (l : string) : bool := String.prefix "connect " l.
Definition is_declaration (l : string) : bool := is_param l || is_shader l.

(** ** [std::set<std::string>] as a strictly increasing list *)

Fixpoint set_insert (x : string) (s : list string) : list string :=
  match s with
  | [] => [x]
  | y :: rest =>
      match String.compare x y with
      | Lt => x :: y :: rest
      | Eq => y :: rest
      | Gt => y :: set_insert x rest
      end
  end.

(** [std::less<std::string>], the order the set iterates in. *)
Definition string_lt (x y : string) : Prop := String.compare x y = Lt.

Definition set_of_list (l : list string) : list string :=
  fold_left (fun s x => set_insert x s) l [].

(** Appending several lines at once. *)
Definition emitLines (lines : list string) (stage : ShaderStage) : ShaderStage :=
  {| stage_blocks := stage_blocks stage;
     stage_code := stage_code stage ++ lines |}.

(** The order the specification asks of the emitted statements: a connection
    statement never stands at or before a declaration statement. *)
Definition connects_follow_declarations (code : list string) : Prop :=
  forall (i j : nat) (c d : string),
    code !! i = Some c -> code !! j = Some d ->
    is_connect c = true -> is_declaration d = true -> j < i.

(** The inputs named in the fixed exclusion set. *)
Definition isExcluded (input : ShaderInput) : bool :=
  String.eqb (in_name input) "backsurfaceshader"
  || String.eqb (in_name input) "displacementshader".

(** Remove the "ND_" prefix from a valid [NodeDef] name; the generator with
    target "genosl" and the batch driver both do it, in the same words. *)
Definition stripND (nodeDefName : string) : string :=
  if Nat.ltb 3 (String.length nodeDefName)
     && String.eqb (String.substring 0 3 nodeDefName) "ND_"
  then String.substring 3 (String.length nodeDefName - 3) nodeDefName
  else nodeDefName.

(** ** [createShader]

    The two revisions differ only in the namespace that holds the block
    identifiers; the identifiers themselves are the same. *)

Definition emptyBlocks : StageBlocks :=
  {| blocks_uniforms := ∅; blocks_inputs := ∅; blocks_outputs := ∅ |}.

(** [createUniformBlock], [createInputBlock], [createOutputBlock]: a block is
    created empty unless one of that name exists. *)
Definition createBlock (name : string) (blocks : gmap string VariableBlock)
  : gmap string VariableBlock :=
  match blocks !! name with
  | Some _ => blocks
  | None => <[name := []]> blocks
  end.

(** [block.add(port)] on the block found under [name]. *)
Definition addToBlock (name : string) (port : ShaderPort)
    (blocks : gmap string VariableBlock) : gmap string VariableBlock :=
  alter (fun b => b ++ [port]) name blocks.

Definition isUsedAndEditable (graph : ShaderGraph) (s : ShaderGraphInputSocket) : bool :=
  negb (Nat.eqb (length (isock_connections s)) 0) && graph_isEditable graph s.

Definition publishUniforms (graph : ShaderGraph) (block : string)
    (blocks : gmap string VariableBlock) : gmap string VariableBlock :=
  fold_left
    (fun acc s =>
       if isUsedAndEditable graph s
       then addToBlock block (PortOfInputSocket s) acc
       else acc)
    (graph_inputSockets graph) blocks.

Definition publishOutputs (graph : ShaderGraph) (block : string)
    (blocks : gmap string VariableBlock) : gmap string VariableBlock :=
  fold_left
    (fun acc s => addToBlock block (PortOfOutputSocket s) acc)
    (graph_outputSockets graph) blocks.

Section CreateShader.
Context `{GraphLayer}.
Variables UNIFORMS INPUTS OUTPUTS : string.

(** The blocks once the three of them exist and the nodes' own variables
    have been created, before the graph interface is published. *)
Definition blocksBeforePublishing (graph : ShaderGraph) (context : GenContext)
  : StageBlocks :=
  let blocks := emptyBlocks in
  let blocks := {| blocks_uniforms := createBlock UNIFORMS (blocks_uniforms blocks);
                   blocks_inputs := blocks_inputs blocks;
                   blocks_outputs := blocks_outputs blocks |} in
  let blocks := {| blocks_uniforms := blocks_uniforms blocks;
                   blocks_inputs := createBlock INPUTS (blocks_inputs blocks);
                   blocks_outputs := blocks_outputs blocks |} in
  let blocks := {| blocks_uniforms := blocks_uniforms blocks;
                   blocks_inputs := blocks_inputs blocks;
                   blocks_outputs := createBlock OUTPUTS (blocks_outputs blocks) |} in
  createVariables graph context blocks.

Definition createShaderWith (name : string) (element : Element)
    (context : GenContext) : Shader :=
  let graph := ShaderGraph_create name element context in
  let blocks := blocksBeforePublishing graph context in
  let blocks := {| blocks_uniforms := publishUniforms graph UNIFORMS (blocks_uniforms blocks);
                   blocks_inputs := blocks_inputs blocks;
                   blocks_outputs := blocks_outputs blocks |} in
  let blocks := {| blocks_uniforms := blocks_uniforms blocks;
                   blocks_inputs := blocks_inputs blocks;
                   blocks_outputs := publishOutputs graph OUTPUTS (blocks_outputs blocks) |} in
  {| shader_name := name;
     shader_graph := graph;
     shader_stage := {| stage_blocks := blocks; stage_code := [] |};
     shader_attributes := ∅ |}.
End CreateShader.

Definition withStage (sh : Shader) (stage : ShaderStage) : Shader :=
  {| shader_name := shader_name sh;
     shader_graph := shader_graph sh;
     shader_stage := stage;
     shader_attributes := shader_attributes sh |}.

Definition setAttribute (key value : string) (sh : Shader) : Shader :=
  {| shader_name := shader_name sh;
     shader_graph := shader_graph sh;
     shader_stage := shader_stage sh;
     shader_attributes := <[key := value]> (shader_attributes sh) |}.

(** [ScopedFloatFormatting]: the constructor installs a format and remembers
    the one it replaces, the destructor puts that one back. *)
Definition ScopedFloatFormatting_enter (fmt : FloatFormat) (w : World)
  : FloatFormat * World :=
  (floatFormat w, {| floatFormat := fmt |}).

Definition ScopedFloatFormatting_leave (saved : FloatFormat) (w : World) : World :=
  {| floatFormat := saved |}.

(** ** Revision with target "genoslnodes" *)

Module OSLNodes.

Definition TARGET : string := "genoslnodes".
Definition UNIFORMS : string := "u".
Definition INPUTS : string := "i".
Definition OUTPUTS : string := "o".

Definition paramString (paramType paramName paramValue : string) : string :=
  "param " +:+ paramType +:+ " " +:+ paramName +:+ " " +:+ paramValue +:+ " ;".

Definition connectString (fromNode fromName toNode toName : string) : string :=
  "connect " +:+ fromNode +:+ "." +:+ fromName +:+ " " +:+ toNode +:+ "." +:+ toName +:+ " ;".

Record WalkState := {
  ws_stage : ShaderStage;
  ws_connections : list string;
  ws_osoPaths : list string;
  ws_lastNodeName : string;
  ws_lastOutput : option ShaderOutput }.

Section Generate.
Context `{Syntax} `{GraphLayer}.

Definition createShader := createShaderWith UNIFORMS INPUTS OUTPUTS.

(** The connection of an input when it comes from a node of the graph. *)
Definition internalConnection (input : ShaderInput) : option (string * ShaderOutput) :=
  match in_connection input with
  | Some c => match out_node c with
              | OwnerNode up => Some (up, c)
              | OwnerGraph => None
              end
  | None => None
  end.

(** Body of the loop over [node->getInputs()]. *)
Definition visitInput (fmt : FloatFormat) (name : string)
    (acc : ShaderStage * list string) (input : ShaderInput)
  : ShaderStage * list string :=
  let '(stage, connections) := acc in
  if in_isDefault input then acc
  else
    let inputName := makeValidName (in_name input) in
    match internalConnection input with
    | None =>
        if String.eqb (in_name input) "backsurfaceshader"
           || String.eqb (in_name input) "displacementshader"
        then acc
        else
          let value := getValue fmt input in
          if String.eqb value "null_closure()" then acc
          else (emitLine (paramString (getTypeName (in_type input)) inputName value) stage,
                connections)
    | Some (up, connection) =>
        let connName := makeValidName (out_name connection) in
        let connect := connectString up connName name inputName in
        (stage, connections ++ [connect])
    end.

(** Body of the loop over [graph.getNodes()].  [Returns None] is the
    early [return nullptr]. *)
Definition visitNode (document : Document) (fmt : FloatFormat)
    (st : WalkState) (node : ShaderNode) : Outcome (option WalkState) :=
  let name := node_name node in
  let '(stage, connections) :=
    fold_left (visitInput fmt name) (node_inputs node)
              (ws_stage st, ws_connections st) in
  let lastOutput := Some (node_output0 node) in
  match getNodeDef document (node_nodeDefName node) with
  | None => Undefined NullNodeDef
  | Some nodeDef =>
      match getImplementation nodeDef "genoslnodes" with
      | None => Undefined NullInterfaceElement
      | Some element =>
          match asA_Implementation element with
          | None => Returns None
          | Some impl =>
              let osoName := impl_function impl in
              let osoPath := impl_file impl in
              Returns (Some
                {| ws_stage := emitLine ("shader " +:+ osoName +:+ " " +:+ name +:+ " ;") stage;
                   ws_connections := connections;
                   ws_osoPaths := set_insert osoPath (ws_osoPaths st);
                   ws_lastNodeName := name;
                   ws_lastOutput := lastOutput |})
          end
      end
  end.

Fixpoint walkNodes (document : Document) (fmt : FloatFormat)
    (nodes : list ShaderNode) (st : WalkState) : Outcome (option WalkState) :=
  match nodes with
  | [] => Returns (Some st)
  | node :: rest =>
      match visitNode document fmt st node with
      | Returns (Some st') => walkNodes document fmt rest st'
      | stop => stop
      end
  end.

(** The wrapper appended when [oslNodesConnectCiWrapper] is set. *)
Definition connectCiWrapper (st : WalkState) (stage : ShaderStage)
  : Outcome ShaderStage :=
  let stage := emitLine "shader setCi root ;" stage in
  match ws_lastOutput st with
  | None => Undefined UninitialisedLastOutput
  | Some lastOutput =>
      let connect := connectString (ws_lastNodeName st) (out_name lastOutput)
                       "root" (td_name (out_type lastOutput) +:+ "_input") in
      Returns (emitLine connect stage)
  end.

(** The loop that joins the required paths. *)
Definition joinOsoPaths (context : GenContext) (osoPaths : list string) : string :=
  fst (fold_left
         (fun '(osoPathStr, separator) osoPath =>
            (osoPathStr +:+ separator +:+ resolveSourceFile context osoPath, ","))
         osoPaths ("", "")).

Definition generateFrom (shader : Shader) (document : Document)
    (context : GenContext) (fmt : FloatFormat) : Outcome (option Shader) :=
  let st0 := {| ws_stage := shader_stage shader;
                ws_connections := [];
                ws_osoPaths := [];
                ws_lastNodeName := "";
                ws_lastOutput := None |} in
  bindO (walkNodes document fmt (graph_nodes (shader_graph shader)) st0)
    (fun r =>
       match r with
       | None => Returns None
       | Some st =>
           let stage := fold_left (fun s c => emitLine c s) (ws_connections st) (ws_stage st) in
           bindO (if oslNodesConnectCiWrapper context
                  then connectCiWrapper st stage
                  else Returns stage)
             (fun stage =>
                Returns (Some (setAttribute "osoPath"
                                 (joinOsoPaths context (ws_osoPaths st))
                                 (withStage shader stage))))
       end).

Definition generate (name : string) (element : Element) (context : GenContext)
    (w : World) : Outcome (option Shader) * World :=
  let shader := createShader name element context in
  let document := elem_document element in
  (generateFrom shader document context (floatFormat w), w).

(** *** The emitted text, described input by input and node by node *)

(** An input on the literal path with a value worth writing. *)
Definition takesLiteralPath (fmt : FloatFormat) (input : ShaderInput) : bool :=
  negb (in_isDefault input)
  && negb (bool_decide (is_Some (internalConnection input)))
  && negb (isExcluded input)
  && negb (String.eqb (getValue fmt input) "null_closure()").

Definition paramLines (fmt : FloatFormat) (input : ShaderInput) : list string :=
  if takesLiteralPath fmt input
  then [paramString (getTypeName (in_type input))
                    (makeValidName (in_name input))
                    (getValue fmt input)]
  else [].

Definition connectLines (name : string) (input : ShaderInput) : list string :=
  if in_isDefault input then []
  else match internalConnection input with
       | Some (up, connection) =>
           [connectString up (makeValidName (out_name connection))
                          name (makeValidName (in_name input))]
       | None => []
       end.

(** The implementation a node resolves to, when everything on the way
    exists. *)
Definition resolveImplementation (document : Document) (node : ShaderNode)
  : option Implementation :=
  match getNodeDef document (node_nodeDefName node) with
  | Some nodeDef =>
      match getImplementation nodeDef "genoslnodes" with
      | Some element => asA_Implementation element
      | None => None
      end
  | None => None
  end.

(** The lookup finds an element, and the element is no implementation. *)
Definition resolvesToOtherElement (document : Document) (node : ShaderNode) : Prop :=
  exists nodeDef element,
    getNodeDef document (node_nodeDefName node) = Some nodeDef /\
    getImplementation nodeDef "genoslnodes" = Some element /\
    asA_Implementation element = None.

Definition shaderLines (document : Document) (node : ShaderNode) : list string :=
  match resolveImplementation document node with
  | Some impl => ["shader " +:+ impl_function impl +:+ " " +:+ node_name node +:+ " ;"]
  | None => []
  end.

Definition declarationLines (document : Document) (fmt : FloatFormat)
    (node : ShaderNode) : list string :=
  flat_map (paramLines fmt) (node_inputs node) ++ shaderLines document node.

Definition nodeConnectLines (node : ShaderNode) : list string :=
  flat_map (connectLines (node_name node)) (node_inputs node).

Definition requiredPaths (document : Document) (nodes : list ShaderNode)
  : list string :=
  flat_map (fun node => match resolveImplementation document node with
                        | Some impl => [impl_file impl]
                        | None => []
                        end) nodes.

(** The wrapper's two lines, read off the last node. *)
Definition sinkLines (nodes : list ShaderNode) : list string :=
  match last nodes with
  | Some node =>
      [ "shader setCi root ;";
        connectString (node_name node) (out_name (node_output0 node)) "root"
                      (td_name (out_type (node_output0 node)) +:+ "_input") ]
  | None => []
  end.

(** The parameter statements the specification promises: sanitized name,
    value in fixed notation. *)
Definition promisedParamLines (input : ShaderInput) : list string :=
  if takesLiteralPath FloatFormatFixed input
  then [paramString (getTypeName (in_type input))
                    (makeValidName (in_name input))
                    (getValue FloatFormatFixed input)]
  else [].

End Generate.
End OSLNodes.

(** ** Revision with target "genosl" *)

Module OSL.

Definition TARGET : string := "genosl".
Definition UNIFORMS : string := "u".
Definition INPUTS : string := "i".
Definition OUTPUTS : string := "o".

Section Generate.
Context `{Syntax} `{GraphLayer}.

Definition createShader := createShaderWith UNIFORMS INPUTS OUTPUTS.

(** Body of the loop over [node->getInputs()].  The connection is read
    through without a null test. *)
Definition visitInput (fmt : FloatFormat) (name : string)
    (acc : ShaderStage * list string) (input : ShaderInput)
  : Outcome (ShaderStage * list string) :=
  let '(stage, connections) := acc in
  let inputName := in_name input in
  let inputType := in_type input in
  match in_value input with
  | None => Returns acc
  | Some _ =>
      if in_isDefault input then Returns acc
      else
        match in_connection input with
        | None => Undefined NullConnection
        | Some connection =>
            match out_node connection with
            | OwnerGraph =>
                if String.eqb (in_name input) "backsurfaceshader"
                   || String.eqb (in_name input) "displacementshader"
                then Returns acc
                else Returns
                       (emitLine ("param " +:+ getTypeName inputType +:+ " "
                                  +:+ in_name input +:+ " "
                                  +:+ getValue fmt input +:+ " ;") stage,
                        connections)
            | OwnerNode up =>
                let connect := "connect " +:+ up +:+ "." +:+ out_name connection
                               +:+ " " +:+ name +:+ "." +:+ inputName +:+ " ;" in
                Returns (stage, connections ++ [connect])
            end
        end
  end.

Fixpoint visitInputs (fmt : FloatFormat) (name : string)
    (inputs : list ShaderInput) (acc : ShaderStage * list string)
  : Outcome (ShaderStage * list string) :=
  match inputs with
  | [] => Returns acc
  | input :: rest =>
      bindO (visitInput fmt name acc input) (visitInputs fmt name rest)
  end.

Definition visitNode (fmt : FloatFormat) (acc : ShaderStage * list string)
    (node : ShaderNode) : Outcome (ShaderStage * list string) :=
  let name := node_name node in
  bindO (visitInputs fmt name (node_inputs node) acc)
    (fun '(stage, connections) =>
       let nodeDefName := stripND (node_nodeDefName node) in
       Returns (emitLine ("shader " +:+ nodeDefName +:+ " " +:+ name +:+ " ;") stage,
                connections)).

Fixpoint walkNodes (fmt : FloatFormat) (nodes : list ShaderNode)
    (acc : ShaderStage * list string) : Outcome (ShaderStage * list string) :=
  match nodes with
  | [] => Returns acc
  | node :: rest => bindO (visitNode fmt acc node) (walkNodes fmt rest)
  end.

Definition generateFrom (shader : Shader) (fmt : FloatFormat) : Outcome (option Shader) :=
  bindO (walkNodes fmt (graph_nodes (shader_graph shader)) (shader_stage shader, []))
    (fun '(stage, connections) =>
       let stage := fold_left (fun s c => emitLine c s) connections stage in
       Returns (Some (withStage shader stage))).

Definition generate (name : string) (element : Element) (context : GenContext)
    (w : World) : Outcome (option Shader) * World :=
  let shader := createShader name element context in
  let '(saved, w) := ScopedFloatFormatting_enter FloatFormatFixed w in
  let result := generateFrom shader (floatFormat w) in
  (result, ScopedFloatFormatting_leave saved w).

(** *** The emitted text, described input by input and node by node *)

(** An input with a value, not marked default, and without any connection:
    the walk reads through its null connection. *)
Definition readsNullConnection (input : ShaderInput) : bool :=
  bool_decide (is_Some (in_value input))
  && negb (in_isDefault input)
  && negb (bool_decide (is_Some (in_connection input))).

Definition wellConnected (node : ShaderNode) : Prop :=
  Forall (fun input => readsNullConnection input = false) (node_inputs node).

Definition connectedToGraph (input : ShaderInput) : bool :=
  match in_connection input with
  | Some connection => match out_node connection with
                       | OwnerGraph => true
                       | OwnerNode _ => false
                       end
  | None => false
  end.

Definition takesLiteralPath (input : ShaderInput) : bool :=
  bool_decide (is_Some (in_value input))
  && negb (in_isDefault input)
  && connectedToGraph input
  && negb (isExcluded input).

Definition paramLines (fmt : FloatFormat) (input : ShaderInput) : list string :=
  if takesLiteralPath input
  then ["param " +:+ getTypeName (in_type input) +:+ " " +:+ in_name input
        +:+ " " +:+ getValue fmt input +:+ " ;"]
  else [].

Definition connectLines (name : string) (input : ShaderInput) : list string :=
  match in_value input, in_isDefault input, in_connection input with
  | Some _, false, Some connection =>
      match out_node connection with
      | OwnerNode up =>
          ["connect " +:+ up +:+ "." +:+ out_name connection
           +:+ " " +:+ name +:+ "." +:+ in_name input +:+ " ;"]
      | OwnerGraph => []
      end
  | _, _, _ => []
  end.

Definition declarationLines (fmt : FloatFormat) (node : ShaderNode) : list string :=
  flat_map (paramLines fmt) (node_inputs node)
  ++ ["shader " +:+ stripND (node_nodeDefName node) +:+ " " +:+ node_name node +:+ " ;"].

Definition nodeConnectLines (node : ShaderNode) : list string :=
  flat_map (connectLines (node_name node)) (node_inputs node).

End Generate.
End OSL.

(** ** The batch driver: the per-definition loop of [main] *)

Module LibsToOso.

(** What the guarded block can throw: [ExceptionRenderError], which carries
    an error log, or any other [Exception]. *)
Inductive Thrown :=
| RenderError (what : string) (errorLog : list string)
| OtherException (what : string).

(** What the loop of the driver runs against: the generator, the renderer
    and the output streams.  [generateSource doc name] is [generate] followed
    by [getSourceCode]; [compileOSL path source] is what the renderer throws
    when it is called on [path] after [source] was sent to the stream at that
    path; [opens path] tells whether [std::ofstream::open] on [path] leaves
    the stream in a good state.  [main] does not test the stream (see the
    note at line 269): on a stream that did not open, the text is dropped and
    the file, if there is one, stays as it is.  A stream that opens is taken
    to store the whole text, and folders and permissions are taken to stay as
    they are during one run. *)
Class Toolchain := {
  getTarget : string;
  generateSource : Document -> string -> Thrown + string;
  compileOSL : string -> string -> option Thrown;
  opens : string -> bool }.

(** Modelled from the spec: [addNodeInstance] and [removeChild] belong to the
    document class, which is outside the sources at hand.  Child names are
    unique; adding under a name that is taken raises an exception, which
    [main] does not catch around the call. *)
Definition addNodeInstance (doc : Document) (nodeDef : NodeDef) (name : string)
  : option Document :=
  match getChild doc name with
  | Some _ => None
  | None => Some (doc ++ [ChildNode name (nd_name nodeDef)])
  end.

Fixpoint removeChild (doc : Document) (name : string) : Document :=
  match doc with
  | [] => []
  | c :: rest => if String.eqb (child_name c) name then rest
                 else c :: removeChild rest name
  end.

(** The state of the loop.  [logFile] holds the lines sent to the log
    stream, in order.  [files] maps the path of a [.osl] source file to the
    text the stream [oslFile] stored there: the loop never reads it and
    changes it only in [writeFile].  Started from the source files a folder
    holds, it gives the source files after the run; started empty, as [main]
    starts it, it gives what the run stored.  It is not the whole file
    system: the log is a stream of its own, kept in [logFile], and what the
    compiler writes next to a source file belongs to the renderer, which is
    outside the sources at hand, and is not recorded. *)
Record State := {
  librariesDoc : Document;
  logFile : list string;
  files : gmap string string;
  hasFailed : bool }.

Definition log (lines : list string) (st : State) : State :=
  {| librariesDoc := librariesDoc st;
     logFile := logFile st ++ lines;
     files := files st;
     hasFailed := hasFailed st |}.

Definition fail (st : State) : State :=
  {| librariesDoc := librariesDoc st;
     logFile := logFile st;
     files := files st;
     hasFailed := true |}.

Definition withDoc (doc : Document) (st : State) : State :=
  {| librariesDoc := doc;
     logFile := logFile st;
     files := files st;
     hasFailed := hasFailed st |}.

Definition skipNotice (nodeName : string) : string :=
  "The following `NodeDef` does not provide a valid OSL implementation, and will be skipped: "
  +:+ nodeName.

(** The lines the two handlers write. *)
Definition diagnostics (nodeName : string) (exc : Thrown) : list string :=
  match exc with
  | RenderError what errorLog =>
      ("Encountered a codegen/compilation related exception for the following node: "
       +:+ nodeName) :: what :: errorLog
  | OtherException what =>
      [ "Failed to codegen/compile the following node to OSL: " +:+ nodeName; what ]
  end.

Definition handler (nodeName : string) (exc : Thrown) (st : State) : State :=
  fail (log (diagnostics nodeName exc) st).

Section Driver.
Context `{Toolchain}.
Variables (outputPath argPrefix : string).

(** [oslFile.open(path); oslFile << content; oslFile.close();] with no test
    of the stream in between. *)
Definition writeFile (path content : string) (st : State) : State :=
  {| librariesDoc := librariesDoc st;
     logFile := logFile st;
     files := if opens path then <[path := content]> (files st) else files st;
     hasFailed := hasFailed st |}.

Definition publicName (nodeDef : NodeDef) : string :=
  let nodeName := stripND (nd_name nodeDef) in
  if negb (String.eqb argPrefix "")
  then argPrefix +:+ "_" +:+ nodeName
  else nodeName.

Definition oslFilePath (nodeName : string) : string :=
  outputPath +:+ "/" +:+ nodeName +:+ ".osl".

(** The [try] block with its two handlers. *)
Definition guarded (nodeName : string) (st : State) : State :=
  match generateSource (librariesDoc st) nodeName with
  | inl exc => handler nodeName exc st
  | inr source =>
      let st := writeFile (oslFilePath nodeName) source st in
      match compileOSL (oslFilePath nodeName) source with
      | Some exc => handler nodeName exc st
      | None => st
      end
  end.

(** One pass through the loop body; [None] when the run is terminated by
    the exception [addNodeInstance] raises. *)
Definition iteration (st : State) (nodeDef : NodeDef) : option State :=
  let nodeName := publicName nodeDef in
  match getImplementation nodeDef getTarget with
  | None => Some (log [skipNotice nodeName] st)
  | Some _ =>
      match addNodeInstance (librariesDoc st) nodeDef nodeName with
      | None => None
      | Some doc =>
          let st := guarded nodeName (withDoc doc st) in
          Some (withDoc (removeChild (librariesDoc st) nodeName) st)
      end
  end.

Fixpoint loop (nodeDefs : list NodeDef) (st : State) : option State :=
  match nodeDefs with
  | [] => Some st
  | nodeDef :: rest =>
      match iteration st nodeDef with
      | Some st' => loop rest st'
      | None => None
      end
  end.

Definition initialState (doc : Document) (files : gmap string string) : State :=
  {| librariesDoc := doc; logFile := []; files := files; hasFailed := false |}.

(** From the creation of the log file to the exit code. *)
Definition batch (doc : Document) (files : gmap string string) : option (Z * State) :=
  match loop (getNodeDefs doc) (initialState doc files) with
  | Some st => Some (if hasFailed st then 1%Z else 0%Z, st)
  | None => None
  end.

(** *** One definition, taken on its own against a given document *)

Inductive ItemResult :=
| Skipped                 (* no implementation for the target *)
| NameTaken               (* the instance cannot be added *)
| Clean                   (* generated and compiled *)
| Failed (exc : Thrown).  (* generation or compilation threw *)

Definition itemResult (doc : Document) (nodeDef : NodeDef) : ItemResult :=
  let nodeName := publicName nodeDef in
  match getImplementation nodeDef getTarget with
  | None => Skipped
  | Some _ =>
      match addNodeInstance doc nodeDef nodeName with
      | None => NameTaken
      | Some doc' =>
          match generateSource doc' nodeName with
          | inl exc => Failed exc
          | inr source =>
              match compileOSL (oslFilePath nodeName) source with
              | Some exc => Failed exc
              | None => Clean
              end
          end
      end
  end.

Definition itemLog (doc : Document) (nodeDef : NodeDef) : list string :=
  match itemResult doc nodeDef with
  | Skipped => [skipNotice (publicName nodeDef)]
  | Failed exc => diagnostics (publicName nodeDef) exc
  | NameTaken | Clean => []
  end.

Definition itemFailed (doc : Document) (nodeDef : NodeDef) : bool :=
  match itemResult doc nodeDef with
  | Failed _ => true
  | _ => false
  end.

(** A definition the driver works on: it has an implementation for the
    target. *)
Definition eligible (nodeDef : NodeDef) : Prop :=
  is_Some (getImplementation nodeDef getTarget).

End Driver.
End LibsToOso.

(** ** Sample syntax, graphs and libraries *)

Module Samples.

Definition isIdentChar (c : ascii) : bool :=
  let n := nat_of_ascii c in
  (Nat.leb 48 n && Nat.leb n 57) || (Nat.leb 65 n && Nat.leb n 90)
  || (Nat.leb 97 n && Nat.leb n 122) || Nat.eqb n 95.

Fixpoint underscoreInvalid (s : string) : string :=
  match s with
  | EmptyString => EmptyString
  | String c rest =>
      String (if isIdentChar c then c else "_"%char) (underscoreInvalid rest)
  end.

(** Digits after the first dot of a decimal literal. *)
Fixpoint fractionDigits (s : string) : option nat :=
  match s with
  | EmptyString => None
  | String c rest =>
      if Ascii.eqb c "."%char then Some (String.length rest) else fractionDigits rest
  end.

Fixpoint zeros (n : nat) : string :=
  match n with
  | O => EmptyString
  | S k => String "0"%char (zeros k)
  end.

(** A decimal literal written with six digits after the dot. *)
Definition toFixed (s : string) : string :=
  match fractionDigits s with
  | Some k => s +:+ zeros (6 - k)
  | None => s +:+ "." +:+ zeros 6
  end.

(** A syntax that replaces every character outside [A-Za-z0-9_] by an
    underscore, names a type by its name, and writes a float literal as the
    document has it unless fixed notation is asked for. *)
Definition sampleSyntax : Syntax :=
  {| makeValidName := underscoreInvalid;
     getTypeName := td_name;
     getValue := fun fmt input =>
       match in_value input with
       | None => "null_closure()"
       | Some v =>
           match fmt with
           | FloatFormatFixed =>
               if String.eqb (value_type v) "float" then toFixed (value_string v)
               else value_string v
           | _ => value_string v
           end
       end |}.

(** A graph layer that hands out a given graph and adds no variables. *)
Definition fixedGraph (g : ShaderGraph) : GraphLayer :=
  {| ShaderGraph_create := fun _ _ _ => g;
     createVariables := fun _ _ blocks => blocks |}.

Definition float : TypeDesc := {| td_name := "float" |}.
Definition color : TypeDesc := {| td_name := "color" |}.

Definition outOf (node : string) : ShaderOutput :=
  {| out_node := OwnerNode node; out_name := "out"; out_type := color |}.

Definition socket (name : string) : ShaderOutput :=
  {| out_node := OwnerGraph; out_name := name; out_type := float |}.

Definition implementedBy (name function file : string) : DocChild :=
  ChildNodeDef {| nd_name := name;
                  nd_implementations :=
                    {[ "genoslnodes" :=
                         IsImplementation {| impl_function := function; impl_file := file |} ]} |}.

Definition unimplemented (name : string) : DocChild :=
  ChildNodeDef {| nd_name := name; nd_implementations := ∅ |}.

(** A definition whose element for the target is a node graph. *)
Definition implementedByGraph (name graph : string) : DocChild :=
  ChildNodeDef {| nd_name := name;
                  nd_implementations := {[ "genoslnodes" := IsNodeGraph graph ]} |}.

Definition library : Document :=
  [ implementedBy "ND_A" "implA" "stdlib/genoslnodes/a.osl";
    implementedBy "ND_B" "implB" "stdlib/genoslnodes/b.osl";
    unimplemented "ND_C";
    implementedByGraph "ND_D" "NG_D" ].

Definition element : Element := {| elem_name := "net"; elem_document := library |}.

(** Node A, with one literal input fed from the graph boundary. *)
Definition nodeA : ShaderNode :=
  {| node_name := "A";
     node_inputs :=
       [ {| in_name := "in.amount"; in_type := float;
            in_value := Some {| value_type := "float"; value_string := "0.5" |};
            in_connection := Some (socket "amount");
            in_isDefault := false |} ];
     node_output0 := outOf "A";
     node_nodeDefName := "ND_A" |}.

(** Node B, whose input [in] is fed by A's output. *)
Definition nodeB : ShaderNode :=
  {| node_name := "B";
     node_inputs :=
       [ {| in_name := "in"; in_type := color;
            in_value := Some {| value_type := "color"; value_string := "0, 0, 0" |};
            in_connection := Some (outOf "A");
            in_isDefault := false |} ];
     node_output0 := outOf "B";
     node_nodeDefName := "ND_B" |}.

(** A node whose definition has no implementation at all. *)
Definition nodeC : ShaderNode :=
  {| node_name := "C"; node_inputs := []; node_output0 := outOf "C";
     node_nodeDefName := "ND_C" |}.

(** A node whose definition is implemented by a node graph. *)
Definition nodeD : ShaderNode :=
  {| node_name := "D"; node_inputs := []; node_output0 := outOf "D";
     node_nodeDefName := "ND_D" |}.

Definition amountSocket : ShaderGraphInputSocket :=
  {| isock_name := "amount"; isock_type := float;
     isock_connections := [("A", "in.amount")] |}.

Definition unusedSocket : ShaderGraphInputSocket :=
  {| isock_name := "unused"; isock_type := float; isock_connections := [] |}.

Definition outSocket : ShaderGraphOutputSocket :=
  {| osock_name := "out"; osock_type := color; osock_connection := None |}.

Definition graphOf (nodes : list ShaderNode) : ShaderGraph :=
  {| graph_nodes := nodes;
     graph_inputSockets := [amountSocket; unusedSocket];
     graph_outputSockets := [outSocket];
     graph_isEditable := fun _ => true |}.

Definition context (wrapper : bool) : GenContext :=
  {| oslNodesConnectCiWrapper := wrapper;
     resolveSourceFile := fun path => "/opt/materialx/libraries/" +:+ path |}.

Definition world : World := {| floatFormat := FloatFormatDefault |}.

(** A toolchain for the batch driver: the definition named ND_B fails to
    compile, everything else goes through. *)
Definition sampleToolchain : LibsToOso.Toolchain :=
  {| LibsToOso.getTarget := "genoslnodes";
     LibsToOso.generateSource := fun _ nodeName => inr ("shader " +:+ nodeName);
     LibsToOso.compileOSL := fun path _ =>
       if String.eqb path "out/B.osl"
       then Some (LibsToOso.RenderError "Command return code returned an error"
                    ["out/B.osl:1: error: syntax error"])
       else None;
     LibsToOso.opens := fun _ => true |}.

(** A toolchain whose generator throws on the node A and whose compiler
    fails on B. *)
Definition failingToolchain : LibsToOso.Toolchain :=
  {| LibsToOso.getTarget := "genoslnodes";
     LibsToOso.generateSource := fun _ nodeName =>
       if String.eqb nodeName "A"
       then inl (LibsToOso.OtherException "Could not find a matching implementation")
       else inr ("shader " +:+ nodeName);
     LibsToOso.compileOSL := fun path _ =>
       if String.eqb path "out/B.osl"
       then Some (LibsToOso.RenderError "Command return code returned an error"
                    ["out/B.osl:1: error: syntax error"])
       else None;
     LibsToOso.opens := fun _ => true |}.

(** The sample toolchain on a host where the stream at [out/D.osl] does not
    open. *)
Definition closedToolchain : LibsToOso.Toolchain :=
  {| LibsToOso.getTarget := "genoslnodes";
     LibsToOso.generateSource := fun _ nodeName => inr ("shader " +:+ nodeName);
     LibsToOso.compileOSL := fun path _ =>
       if String.eqb path "out/B.osl"
       then Some (LibsToOso.RenderError "Command return code returned an error"
                    ["out/B.osl:1: error: syntax error"])
       else None;
     LibsToOso.opens := fun path => negb (String.eqb path "out/D.osl") |}.

End Samples.


(** ** The command line of the batch driver *)

Module CommandLine.

(** The five values [main] gathers from its arguments. *)
Record Args := {
  argOutputPath : string;
  argOslCompilerPath : string;
  argOslIncludePath : string;
  argLibraries : string;
  argPrefix : string }.

Definition noArgs : Args :=
  {| argOutputPath := ""; argOslCompilerPath := ""; argOslIncludePath := "";
     argLibraries := ""; argPrefix := "" |}.

Inductive Flag :=
| OutputPath | OslCompilerPath | OslIncludePath | Libraries | Prefix | Help.

Definition flagName (f : Flag) : string :=
  match f with
  | OutputPath => "--outputPath"
  | OslCompilerPath => "--oslCompilerPath"
  | OslIncludePath => "--oslIncludePath"
  | Libraries => "--libraries"
  | Prefix => "--prefix"
  | Help => "--help"
  end.

(** The chain of comparisons of the token against the option names. *)
Definition recognise (token : string) : option Flag :=
  if String.eqb token "--outputPath" then Some OutputPath
  else if String.eqb token "--oslCompilerPath" then Some OslCompilerPath
  else if String.eqb token "--oslIncludePath" then Some OslIncludePath
  else if String.eqb token "--libraries" then Some Libraries
  else if String.eqb token "--prefix" then Some Prefix
  else if String.eqb token "--help" then Some Help
  else None.

(** The assignment a recognised option makes. *)
Definition store (f : Flag) (nextToken : string) (args : Args) : Args :=
  match f with
  | OutputPath =>
      {| argOutputPath := nextToken;
         argOslCompilerPath := argOslCompilerPath args;
         argOslIncludePath := argOslIncludePath args;
         argLibraries := argLibraries args;
         argPrefix := argPrefix args |}
  | OslCompilerPath =>
      {| argOutputPath := argOutputPath args;
         argOslCompilerPath := nextToken;
         argOslIncludePath := argOslIncludePath args;
         argLibraries := argLibraries args;
         argPrefix := argPrefix args |}
  | OslIncludePath =>
      {| argOutputPath := argOutputPath args;
         argOslCompilerPath := argOslCompilerPath args;
         argOslIncludePath := nextToken;
         argLibraries := argLibraries args;
         argPrefix := argPrefix args |}
  | Libraries =>
      {| argOutputPath := argOutputPath args;
         argOslCompilerPath := argOslCompilerPath args;
         argOslIncludePath := argOslIncludePath args;
         argLibraries := nextToken;
         argPrefix := argPrefix args |}
  | Prefix =>
      {| argOutputPath := argOutputPath args;
         argOslCompilerPath := argOslCompilerPath args;
         argOslIncludePath := argOslIncludePath args;
         argLibraries := argLibraries args;
         argPrefix := nextToken |}
  | Help => args
  end.

Definition field (f : Flag) (args : Args) : string :=
  match f with
  | OutputPath => argOutputPath args
  | OslCompilerPath => argOslCompilerPath args
  | OslIncludePath => argOslIncludePath args
  | Libraries => argLibraries args
  | Prefix => argPrefix args
  | Help => ""
  end.

(** The loop over the tokens.  [None] is the [return 0] of [--help].  The
    next token is the empty string after the last one; a recognised option
    followed by a non-empty token steps over that token too.  What the loop
    prints is left out. *)
Fixpoint parseTokens (tokens : list string) (args : Args) : option Args :=
  match tokens with
  | [] => Some args
  | token :: rest =>
      let nextToken := match rest with
                       | next :: _ => next
                       | [] => ""
                       end in
      match recognise token with
      | None => parseTokens rest args
      | Some Help => None
      | Some f =>
          let args := store f nextToken args in
          match rest with
          | [] => Some args
          | next :: rest' =>
              if String.eqb next "" then parseTokens rest args
              else parseTokens rest' args
          end
      end
  end.

(** An option and its value, as two tokens. *)
Definition pairTokens (pairs : list (Flag * string)) : list string :=
  flat_map (fun '(f, v) => [flagName f; v]) pairs.

Definition storeAll (pairs : list (Flag * string)) (args : Args) : Args :=
  fold_left (fun a '(f, v) => store f v a) pairs args.

(** A pair the loop reads as an option with its value. *)
Definition properPair (p : Flag * string) : Prop :=
  fst p <> Help /\ snd p <> "".

End CommandLine.

(** ** [main] of the batch driver *)

Module LibsToOsoMain.



Definition logFilePath (outputPath : string) : string :=
  outputPath +:+ "/genoslnodes_libs_to_oso.txt".




End LibsToOsoMain.

(** ** The source file of one definition *)

Section WrittenFiles.
Context `{LibsToOso.Toolchain}.
Variables (outputPath argPrefix : string).

(** The text the generator gives for a definition the driver works on, when
    the instance can be added and the generator does not throw. *)
Definition generatedSource (doc : Document) (nodeDef : NodeDef) : option string :=
  let nodeName := LibsToOso.publicName argPrefix nodeDef in
  match getImplementation nodeDef LibsToOso.getTarget with
  | None => None
  | Some _ =>
      match LibsToOso.addNodeInstance doc nodeDef nodeName with
      | None => None
      | Some doc' =>
          match LibsToOso.generateSource doc' nodeName with
          | inl _ => None
          | inr source => Some source
          end
      end
  end.

Definition sourcePath (nodeDef : NodeDef) : string :=
  LibsToOso.oslFilePath outputPath (LibsToOso.publicName argPrefix nodeDef).

(** The text the stream at the definition's source path takes: the generated
    text, when there is one and the stream opens. *)
Definition storedSource (doc : Document) (nodeDef : NodeDef) : option string :=
  if LibsToOso.opens (sourcePath nodeDef) then generatedSource doc nodeDef else None.

End WrittenFiles.

(** A node whose definition name the sample library does not hold. *)
Definition sampleUnknownNode : ShaderNode :=
  {| node_name := "E"; node_inputs := []; node_output0 := Samples.outOf "E";
     node_nodeDefName := "ND_E" |}.

(** A node with a literal input that has no connection at all. *)
Definition sampleLooseNode : ShaderNode :=
  {| node_name := "F";
     node_inputs :=
       [ {| in_name := "gain"; in_type := Samples.float;
            in_value := Some {| value_type := "float"; value_string := "2" |};
            in_connection := None;
            in_isDefault := false |} ];
     node_output0 := Samples.outOf "F";
     node_nodeDefName := "ND_A" |}.



(** * Properties *)

(** ** Stage text *)

Lemma emitLines_nil stage : emitLines [] stage = stage.
Proof. destruct stage; unfold emitLines; simpl. by rewrite app_nil_r. Qed.

Lemma emitLine_emitLines l ls stage :
  emitLine l (emitLines ls stage) = emitLines (ls ++ [l]) stage.
Proof. unfold emitLine, emitLines; simpl. by rewrite <- app_assoc. Qed.

Lemma emitLines_emitLines ls1 ls2 stage :
  emitLines ls2 (emitLines ls1 stage) = emitLines (ls1 ++ ls2) stage.
Proof. unfold emitLines; simpl. by rewrite <- app_assoc. Qed.

Lemma emitLine_one l stage : emitLine l stage = emitLines [l] stage.
Proof. reflexivity. Qed.

Lemma fold_emitLine cs stage :
  fold_left (fun s c => emitLine c s) cs stage = emitLines cs stage.
Proof.
  revert stage. induction cs as [|c cs IH]; intros stage; simpl.
  - by rewrite emitLines_nil.
  - rewrite IH, emitLine_one, emitLines_emitLines. reflexivity.
Qed.

(** ** Telling the three kinds of statement apart *)

Lemma prefix_head a s l :
  String.prefix (String a s) l = true -> exists l', l = String a l'.
Proof.
  destruct l as [|b l']; [done|].
  change (String.prefix (String a s) (String b l'))
    with (if ascii_dec a b then String.prefix s l' else false).
  destruct (ascii_dec a b) as [->|]; [eauto | done].
Qed.

Lemma prefix_append s t : String.prefix s (s +:+ t) = true.
Proof.
  induction s as [|a s IH].
  - by destruct t.
  - change (String.prefix (String a s) (String a s +:+ t))
      with (if ascii_dec a a then String.prefix s (s +:+ t) else false).
    by destruct (ascii_dec a a).
Qed.

Lemma connect_not_declaration l : is_connect l = true -> is_declaration l = false.
Proof. intros [l' ->]%prefix_head. reflexivity. Qed.

Lemma declaration_not_connect l : is_declaration l = true -> is_connect l = false.
Proof.
  intros Hd. destruct (is_connect l) eqn:Hc; [|done].
  apply connect_not_declaration in Hc. congruence.
Qed.

Lemma param_not_shader l : is_param l = true -> is_shader l = false.
Proof. intros [l' ->]%prefix_head. reflexivity. Qed.

Lemma shader_not_param l : is_shader l = true -> is_param l = false.
Proof. intros [l' ->]%prefix_head. reflexivity. Qed.

Lemma connect_not_param l : is_connect l = true -> is_param l = false.
Proof.
  intros Hc. apply connect_not_declaration in Hc.
  unfold is_declaration in Hc. by apply orb_false_elim in Hc as [? _].
Qed.

(** Declarations followed by connections are in the order asked for. *)
Lemma declarations_then_connects ds cs :
  Forall (fun l => is_declaration l = true) ds ->
  Forall (fun l => is_connect l = true) cs ->
  connects_follow_declarations (ds ++ cs).
Proof.
  intros Hds Hcs i j c d Hi Hj Hc Hd.
  rewrite Forall_lookup in Hds. rewrite Forall_lookup in Hcs.
  destruct (decide (i < length ds)) as [Hlt|Hge].
  - rewrite lookup_app_l in Hi by done.
    apply Hds in Hi. apply declaration_not_connect in Hi. congruence.
  - destruct (decide (j < length ds)) as [|Hj'']; [lia|].
    rewrite lookup_app_r in Hj by lia.
    apply Hcs in Hj. apply connect_not_declaration in Hj. congruence.
Qed.

(** ** The walk of the generator with target "genoslnodes" *)

Section OSLNodesWalk.
Context `{Syntax} `{GraphLayer}.
Import OSLNodes.

Lemma nodes_visitInput fmt name stage conns input :
  visitInput fmt name (stage, conns) input
  = (emitLines (paramLines fmt input) stage, conns ++ connectLines name input).
Proof.
  unfold visitInput, paramLines, connectLines, takesLiteralPath, isExcluded.
  destruct (in_isDefault input); cbn [negb andb].
  { by rewrite emitLines_nil, app_nil_r. }
  destruct (internalConnection input) as [[up c]|].
  { rewrite bool_decide_eq_true_2 by eauto. cbn [negb andb].
    by rewrite emitLines_nil. }
  rewrite bool_decide_eq_false_2 by (by intros [? ?]). cbn [negb andb].
  destruct (_ || _); cbn [negb andb]; [by rewrite emitLines_nil, app_nil_r|].
  destruct (String.eqb _ _); cbn [negb andb]; rewrite app_nil_r;
    [by rewrite emitLines_nil|done].
Qed.

Lemma nodes_visitInputs fmt name inputs stage conns :
  fold_left (visitInput fmt name) inputs (stage, conns)
  = (emitLines (flat_map (paramLines fmt) inputs) stage,
     conns ++ flat_map (connectLines name) inputs).
Proof.
  revert stage conns.
  induction inputs as [|input inputs IH]; intros stage conns; cbn [fold_left flat_map].
  - by rewrite emitLines_nil, app_nil_r.
  - rewrite nodes_visitInput, IH, emitLines_emitLines, <- app_assoc. reflexivity.
Qed.

(** A node that resolves to an implementation is declared and the walk goes
    on. *)
Lemma nodes_visitNode_resolved document fmt st node impl :
  resolveImplementation document node = Some impl ->
  visitNode document fmt st node
  = Returns (Some
      {| ws_stage := emitLines (declarationLines document fmt node) (ws_stage st);
         ws_connections := ws_connections st ++ nodeConnectLines node;
         ws_osoPaths := set_insert (impl_file impl) (ws_osoPaths st);
         ws_lastNodeName := node_name node;
         ws_lastOutput := Some (node_output0 node) |}).
Proof.
  intros Hres. unfold visitNode, declarationLines, shaderLines, nodeConnectLines.
  rewrite nodes_visitInputs, Hres. unfold resolveImplementation in Hres.
  destruct (getNodeDef _ _) as [nodeDef|]; [|done].
  destruct (getImplementation _ _) as [element|]; [|done].
  rewrite Hres. by rewrite emitLine_one, emitLines_emitLines.
Qed.

Lemma nodes_visitNode_inv document fmt st node st' :
  visitNode document fmt st node = Returns (Some st') ->
  is_Some (resolveImplementation document node).
Proof.
  unfold visitNode, resolveImplementation.
  destruct (fold_left _ _ _) as [stage conns].
  destruct (getNodeDef _ _) as [nodeDef|]; [|done].
  destruct (getImplementation _ _) as [element|]; [|done].
  destruct (asA_Implementation element); [eauto|done].
Qed.

(** The element found is no implementation: the early return. *)
Lemma nodes_visitNode_other document fmt st node :
  resolvesToOtherElement document node ->
  visitNode document fmt st node = Returns None.
Proof.
  intros (nodeDef & element & Hnd & Hel & Has). unfold visitNode.
  destruct (fold_left _ _ _) as [stage conns]. by rewrite Hnd, Hel, Has.
Qed.

(** The lookup finds no element at all: the null pointer is read through. *)
Lemma nodes_visitNode_missing document fmt st node nodeDef :
  getNodeDef document (node_nodeDefName node) = Some nodeDef ->
  getImplementation nodeDef "genoslnodes" = None ->
  visitNode document fmt st node = Undefined NullInterfaceElement.
Proof.
  intros Hnd Hel. unfold visitNode.
  destruct (fold_left _ _ _) as [stage conns]. by rewrite Hnd, Hel.
Qed.

Lemma requiredPaths_cons document node nodes impl :
  resolveImplementation document node = Some impl ->
  requiredPaths document (node :: nodes) = impl_file impl :: requiredPaths document nodes.
Proof. intros Hres. unfold requiredPaths. simpl. by rewrite Hres. Qed.

(** When every node resolves, the walk runs to the end, and this is the state
    it ends in. *)
Lemma nodes_walk_resolved document fmt nodes st :
  Forall (fun node => is_Some (resolveImplementation document node)) nodes ->
  walkNodes document fmt nodes st
  = Returns (Some
      {| ws_stage := emitLines (flat_map (declarationLines document fmt) nodes) (ws_stage st);
         ws_connections := ws_connections st ++ flat_map nodeConnectLines nodes;
         ws_osoPaths := fold_left (fun s x => set_insert x s)
                                  (requiredPaths document nodes) (ws_osoPaths st);
         ws_lastNodeName := from_option node_name (ws_lastNodeName st) (last nodes);
         ws_lastOutput := from_option (fun n => Some (node_output0 n))
                                      (ws_lastOutput st) (last nodes) |}).
Proof.
  intros Hall. revert st. induction Hall as [|node nodes [impl Himpl] Hall IH]; intros st.
  - simpl. rewrite emitLines_nil, app_nil_r. by destruct st.
  - cbn [walkNodes]. rewrite (nodes_visitNode_resolved _ _ _ _ _ Himpl), IH.
    cbn [ws_stage ws_connections ws_osoPaths ws_lastNodeName ws_lastOutput].
    rewrite emitLines_emitLines, <- app_assoc, (requiredPaths_cons _ _ _ _ Himpl).
    rewrite (last_cons node nodes). do 3 f_equal.
    all: destruct (last nodes); reflexivity.
Qed.

Lemma nodes_walk_inv document fmt nodes st st' :
  walkNodes document fmt nodes st = Returns (Some st') ->
  Forall (fun node => is_Some (resolveImplementation document node)) nodes.
Proof.
  revert st. induction nodes as [|node nodes IH]; intros st Hw; [constructor|].
  cbn [walkNodes] in Hw.
  destruct (visitNode document fmt st node) as [[st1|]|] eqn:Hv; try done.
  constructor; [by eapply nodes_visitNode_inv|by eapply IH].
Qed.

(** The walk returns null at the first node whose element is no
    implementation, when the nodes before it resolve. *)
Lemma nodes_walk_other document fmt before node after st :
  Forall (fun n => is_Some (resolveImplementation document n)) before ->
  resolvesToOtherElement document node ->
  walkNodes document fmt (before ++ node :: after) st = Returns None.
Proof.
  intros Hall Hother. revert st.
  induction Hall as [|n ns [impl Himpl] Hall IH]; intros st.
  - cbn [app walkNodes]. by rewrite nodes_visitNode_other.
  - cbn [app walkNodes]. rewrite (nodes_visitNode_resolved _ _ _ _ _ Himpl). apply IH.
Qed.

End OSLNodesWalk.

(** ** The walk of the generator with target "genosl" *)

Section OSLWalk.
Context `{Syntax} `{GraphLayer}.
Import OSL.

Lemma osl_visitInput fmt name stage conns input :
  visitInput fmt name (stage, conns) input
  = if readsNullConnection input then Undefined NullConnection
    else Returns (emitLines (paramLines fmt input) stage,
                  conns ++ connectLines name input).
Proof.
  unfold visitInput, readsNullConnection, paramLines, connectLines,
    takesLiteralPath, connectedToGraph, isExcluded.
  destruct (in_value input) as [v|].
  2:{ rewrite bool_decide_eq_false_2 by (by intros [? ?]). cbn [andb].
      by rewrite emitLines_nil, app_nil_r. }
  rewrite bool_decide_eq_true_2 by eauto. cbn [andb].
  destruct (in_isDefault input); cbn [negb andb].
  { by rewrite emitLines_nil, app_nil_r. }
  destruct (in_connection input) as [c|].
  2:{ by rewrite bool_decide_eq_false_2 by (by intros [? ?]). }
  rewrite bool_decide_eq_true_2 by eauto. cbn [negb andb].
  destruct (out_node c) as [|up]; [|by rewrite emitLines_nil].
  destruct (_ || _); cbn [negb]; rewrite app_nil_r; [by rewrite emitLines_nil|done].
Qed.

Lemma osl_visitInputs fmt name inputs stage conns :
  Forall (fun input => readsNullConnection input = false) inputs ->
  visitInputs fmt name inputs (stage, conns)
  = Returns (emitLines (flat_map (paramLines fmt) inputs) stage,
             conns ++ flat_map (connectLines name) inputs).
Proof.
  intros Hall. revert stage conns.
  induction Hall as [|input inputs Hin Hall IH]; intros stage conns;
    cbn [visitInputs flat_map].
  - by rewrite emitLines_nil, app_nil_r.
  - rewrite osl_visitInput, Hin. cbn [bindO].
    rewrite IH, emitLines_emitLines, <- app_assoc. reflexivity.
Qed.

Lemma osl_visitInputs_inv fmt name inputs acc acc' :
  visitInputs fmt name inputs acc = Returns acc' ->
  Forall (fun input => readsNullConnection input = false) inputs.
Proof.
  revert acc. induction inputs as [|input inputs IH]; intros [stage conns] Hv;
    [constructor|].
  cbn [visitInputs] in Hv. rewrite osl_visitInput in Hv.
  destruct (readsNullConnection input) eqn:Hr; [done|].
  constructor; [done|]. by eapply IH.
Qed.

Lemma osl_visitNode fmt stage conns node :
  wellConnected node ->
  visitNode fmt (stage, conns) node
  = Returns (emitLines (declarationLines fmt node) stage,
             conns ++ nodeConnectLines node).
Proof.
  intros Hwc. unfold visitNode, declarationLines, nodeConnectLines.
  rewrite (osl_visitInputs _ _ _ _ _ Hwc). cbn [bindO].
  by rewrite emitLine_one, emitLines_emitLines.
Qed.

Lemma osl_visitNode_inv fmt acc node acc' :
  visitNode fmt acc node = Returns acc' -> wellConnected node.
Proof.
  unfold visitNode, wellConnected. intros Hv.
  destruct (visitInputs fmt (node_name node) (node_inputs node) acc) eqn:Hi; [|done].
  by eapply osl_visitInputs_inv.
Qed.

Lemma osl_walk fmt nodes stage conns :
  Forall wellConnected nodes ->
  walkNodes fmt nodes (stage, conns)
  = Returns (emitLines (flat_map (declarationLines fmt) nodes) stage,
             conns ++ flat_map nodeConnectLines nodes).
Proof.
  intros Hall. revert stage conns.
  induction Hall as [|node nodes Hn Hall IH]; intros stage conns;
    cbn [walkNodes flat_map].
  - by rewrite emitLines_nil, app_nil_r.
  - rewrite (osl_visitNode _ _ _ _ Hn). cbn [bindO].
    rewrite IH, emitLines_emitLines, <- app_assoc. reflexivity.
Qed.

Lemma osl_walk_inv fmt nodes acc acc' :
  walkNodes fmt nodes acc = Returns acc' -> Forall wellConnected nodes.
Proof.
  revert acc. induction nodes as [|node nodes IH]; intros acc Hw; [constructor|].
  cbn [walkNodes] in Hw.
  destruct (visitNode fmt acc node) as [acc1|] eqn:Hv; [|done].
  constructor; [by eapply osl_visitNode_inv|by eapply IH].
Qed.

(** The generator with target "genosl" has no path that returns null. *)
Lemma osl_generateFrom_not_null shader fmt :
  generateFrom shader fmt <> Returns None.
Proof.
  unfold generateFrom.
  destruct (walkNodes _ _ _) as [[stage conns]|]; done.
Qed.

End OSLWalk.

(** ** What [generate] returns *)

Section GenerateFacts.
Context `{Syntax} `{GraphLayer}.

Lemma createShader_code U I O name element context :
  stage_code (shader_stage (createShaderWith U I O name element context)) = [].
Proof. reflexivity. Qed.

Lemma createShader_graph U I O name element context :
  shader_graph (createShaderWith U I O name element context)
  = ShaderGraph_create name element context.
Proof. reflexivity. Qed.

(** With every node resolved, the generator with target "genoslnodes" either
    reads the unassigned [lastOutput] (wrapper on, no node) or returns the
    shader described here. *)
Lemma nodes_generateFrom_resolved shader document context fmt :
  let nodes := graph_nodes (shader_graph shader) in
  Forall (fun node => is_Some (OSLNodes.resolveImplementation document node)) nodes ->
  OSLNodes.generateFrom shader document context fmt
  = if oslNodesConnectCiWrapper context && bool_decide (nodes = [])
    then Undefined UninitialisedLastOutput
    else Returns (Some
           (setAttribute "osoPath"
              (OSLNodes.joinOsoPaths context
                 (set_of_list (OSLNodes.requiredPaths document nodes)))
              (withStage shader
                 (emitLines
                    (flat_map (OSLNodes.declarationLines document fmt) nodes
                     ++ flat_map OSLNodes.nodeConnectLines nodes
                     ++ (if oslNodesConnectCiWrapper context
                         then OSLNodes.sinkLines nodes else []))
                    (shader_stage shader))))).
Proof.
  intros nodes Hall. unfold OSLNodes.generateFrom. fold nodes.
  rewrite (nodes_walk_resolved document fmt nodes _ Hall).
  cbn [bindO OSLNodes.ws_stage OSLNodes.ws_connections OSLNodes.ws_osoPaths
       OSLNodes.ws_lastNodeName OSLNodes.ws_lastOutput app].
  rewrite fold_emitLine, emitLines_emitLines.
  destruct (oslNodesConnectCiWrapper context); cbn [andb bindO].
  - unfold OSLNodes.connectCiWrapper, OSLNodes.sinkLines.
    cbn [OSLNodes.ws_lastOutput OSLNodes.ws_lastNodeName].
    destruct (last nodes) as [node|] eqn:Hlast; cbn [from_option].
    + rewrite bool_decide_eq_false_2 by (intros ->; done).
      cbn [bindO]. rewrite !emitLine_one, !emitLines_emitLines.
      by rewrite <- !app_assoc.
    + apply last_None in Hlast. by rewrite bool_decide_eq_true_2.
  - by rewrite app_nil_r.
Qed.

(** Whenever it returns a shader, every node resolved. *)
Lemma nodes_generateFrom_inv shader document context fmt sh :
  OSLNodes.generateFrom shader document context fmt = Returns (Some sh) ->
  Forall (fun node => is_Some (OSLNodes.resolveImplementation document node))
         (graph_nodes (shader_graph shader)).
Proof.
  unfold OSLNodes.generateFrom. intros Hg.
  destruct (OSLNodes.walkNodes _ _ _ _) as [[st|]|] eqn:Hw; try done.
  by eapply nodes_walk_inv.
Qed.

Lemma osl_generateFrom_connected shader fmt :
  let nodes := graph_nodes (shader_graph shader) in
  Forall OSL.wellConnected nodes ->
  OSL.generateFrom shader fmt
  = Returns (Some (withStage shader
      (emitLines (flat_map (OSL.declarationLines fmt) nodes
                  ++ flat_map OSL.nodeConnectLines nodes)
                 (shader_stage shader)))).
Proof.
  intros nodes Hall. unfold OSL.generateFrom. fold nodes.
  rewrite (osl_walk fmt nodes _ _ Hall). cbn [bindO app].
  by rewrite fold_emitLine, emitLines_emitLines.
Qed.

Lemma osl_generateFrom_inv shader fmt r :
  OSL.generateFrom shader fmt = Returns r ->
  Forall OSL.wellConnected (graph_nodes (shader_graph shader)).
Proof.
  unfold OSL.generateFrom. intros Hg.
  destruct (OSL.walkNodes _ _ _) as [acc|] eqn:Hw; [|done].
  by eapply osl_walk_inv.
Qed.

(** The text and the path attribute of a shader returned with target
    "genoslnodes". *)
Lemma nodes_generate_returns name element context w sh :
  let nodes := graph_nodes (ShaderGraph_create name element context) in
  fst (OSLNodes.generate name element context w) = Returns (Some sh) ->
  Forall (fun node => is_Some (OSLNodes.resolveImplementation (elem_document element) node))
         nodes
  /\ stage_code (shader_stage sh)
     = flat_map (OSLNodes.declarationLines (elem_document element) (floatFormat w)) nodes
       ++ flat_map OSLNodes.nodeConnectLines nodes
       ++ (if oslNodesConnectCiWrapper context then OSLNodes.sinkLines nodes else [])
  /\ shader_attributes sh
     = {[ "osoPath" :=
            OSLNodes.joinOsoPaths context
              (set_of_list (OSLNodes.requiredPaths (elem_document element) nodes)) ]}.
Proof.
  intros nodes Hgen. unfold OSLNodes.generate in Hgen. cbn [fst] in Hgen.
  pose proof (nodes_generateFrom_inv _ _ _ _ _ Hgen) as Hall.
  rewrite (nodes_generateFrom_resolved _ _ _ _ Hall) in Hgen.
  destruct (_ && _); [done|]. injection Hgen as <-.
  split; [exact Hall|]. split; reflexivity.
Qed.

(** The text of a shader returned with target "genosl". *)
Lemma osl_generate_returns name element context w sh :
  let nodes := graph_nodes (ShaderGraph_create name element context) in
  fst (OSL.generate name element context w) = Returns (Some sh) ->
  Forall OSL.wellConnected nodes
  /\ stage_code (shader_stage sh)
     = flat_map (OSL.declarationLines FloatFormatFixed) nodes
       ++ flat_map OSL.nodeConnectLines nodes.
Proof.
  intros nodes Hgen. unfold OSL.generate in Hgen.
  cbn [ScopedFloatFormatting_enter fst floatFormat] in Hgen.
  pose proof (osl_generateFrom_inv _ _ _ Hgen) as Hall.
  rewrite (osl_generateFrom_connected _ _ Hall) in Hgen.
  injection Hgen as <-. split; [exact Hall|reflexivity].
Qed.

(** With target "genoslnodes" a shader is returned exactly when every node
    resolves to an implementation and the wrapper, if on, finds a node. *)
Lemma nodes_generate_total name element context w :
  let nodes := graph_nodes (ShaderGraph_create name element context) in
  (exists sh, fst (OSLNodes.generate name element context w) = Returns (Some sh))
  <-> Forall (fun node =>
                is_Some (OSLNodes.resolveImplementation (elem_document element) node))
             nodes
      /\ (oslNodesConnectCiWrapper context = true -> nodes <> []).
Proof.
  intros nodes. unfold OSLNodes.generate. cbn [fst]. split.
  - intros [sh Hgen]. pose proof (nodes_generateFrom_inv _ _ _ _ _ Hgen) as Hall.
    split; [exact Hall|]. intros Hwrap Hnil.
    rewrite (nodes_generateFrom_resolved _ _ _ _ Hall) in Hgen.
    change (graph_nodes (shader_graph (OSLNodes.createShader name element context)))
      with nodes in Hgen.
    rewrite Hwrap, Hnil in Hgen. by rewrite bool_decide_eq_true_2 in Hgen.
  - intros [Hall Hwrap].
    rewrite (nodes_generateFrom_resolved
               (OSLNodes.createShader name element context) _ _ _ Hall).
    change (graph_nodes (shader_graph (OSLNodes.createShader name element context)))
      with nodes.
    destruct (oslNodesConnectCiWrapper context); cbn [andb]; [|eauto].
    rewrite bool_decide_eq_false_2 by auto. eauto.
Qed.

(** With target "genosl" a shader is returned exactly when no input is read
    through a null connection. *)
Lemma osl_generate_total name element context w :
  (exists sh, fst (OSL.generate name element context w) = Returns (Some sh))
  <-> Forall OSL.wellConnected (graph_nodes (ShaderGraph_create name element context)).
Proof.
  unfold OSL.generate. cbn [ScopedFloatFormatting_enter fst floatFormat]. split.
  - intros [sh Hgen]. by apply osl_generateFrom_inv in Hgen.
  - intros Hall.
    rewrite (osl_generateFrom_connected (OSL.createShader name element context) _ Hall).
    eauto.
Qed.

End GenerateFacts.

(** ** The kind of every emitted line *)

Section LineKinds.
Context `{Syntax} `{GraphLayer}.

Lemma nodes_paramLines_kind fmt input :
  Forall (fun l => is_param l = true) (OSLNodes.paramLines fmt input).
Proof.
  unfold OSLNodes.paramLines. destruct (OSLNodes.takesLiteralPath fmt input); [|constructor].
  constructor; [apply prefix_append|constructor].
Qed.

Lemma nodes_shaderLines_kind document node :
  Forall (fun l => is_shader l = true) (OSLNodes.shaderLines document node).
Proof.
  unfold OSLNodes.shaderLines. destruct (OSLNodes.resolveImplementation document node);
    [|constructor].
  constructor; [apply prefix_append|constructor].
Qed.

Lemma nodes_connectLines_kind name input :
  Forall (fun l => is_connect l = true) (OSLNodes.connectLines name input).
Proof.
  unfold OSLNodes.connectLines. destruct (in_isDefault input); [constructor|].
  destruct (OSLNodes.internalConnection input) as [[up c]|]; [|constructor].
  constructor; [apply prefix_append|constructor].
Qed.

Lemma nodes_declarations_kind document fmt nodes :
  Forall (fun l => is_declaration l = true)
         (flat_map (OSLNodes.declarationLines document fmt) nodes).
Proof.
  apply Forall_flat_map, Forall_forall. intros node _.
  unfold OSLNodes.declarationLines. apply Forall_app. split.
  - apply Forall_flat_map, Forall_forall. intros input _.
    eapply Forall_impl; [apply nodes_paramLines_kind|].
    intros l Hl. unfold is_declaration. by rewrite Hl.
  - eapply Forall_impl; [apply nodes_shaderLines_kind|].
    intros l Hl. unfold is_declaration. rewrite Hl. apply orb_true_r.
Qed.

Lemma nodes_connects_kind nodes :
  Forall (fun l => is_connect l = true) (flat_map OSLNodes.nodeConnectLines nodes).
Proof.
  apply Forall_flat_map, Forall_forall. intros node _.
  apply Forall_flat_map, Forall_forall. intros input _.
  apply nodes_connectLines_kind.
Qed.

Lemma osl_paramLines_kind fmt input :
  Forall (fun l => is_param l = true) (OSL.paramLines fmt input).
Proof.
  unfold OSL.paramLines. destruct (OSL.takesLiteralPath input); [|constructor].
  constructor; [apply prefix_append|constructor].
Qed.

Lemma osl_connectLines_kind name input :
  Forall (fun l => is_connect l = true) (OSL.connectLines name input).
Proof.
  unfold OSL.connectLines.
  destruct (in_value input); [|constructor].
  destruct (in_isDefault input); [constructor|].
  destruct (in_connection input) as [c|]; [|constructor].
  destruct (out_node c); [constructor|].
  constructor; [apply prefix_append|constructor].
Qed.

Lemma osl_declarations_kind fmt nodes :
  Forall (fun l => is_declaration l = true)
         (flat_map (OSL.declarationLines fmt) nodes).
Proof.
  apply Forall_flat_map, Forall_forall. intros node _.
  unfold OSL.declarationLines. apply Forall_app. split.
  - apply Forall_flat_map, Forall_forall. intros input _.
    eapply Forall_impl; [apply osl_paramLines_kind|].
    intros l Hl. unfold is_declaration. by rewrite Hl.
  - constructor; [apply prefix_append|constructor].
Qed.

Lemma osl_connects_kind nodes :
  Forall (fun l => is_connect l = true) (flat_map OSL.nodeConnectLines nodes).
Proof.
  apply Forall_flat_map, Forall_forall. intros node _.
  apply Forall_flat_map, Forall_forall. intros input _.
  apply osl_connectLines_kind.
Qed.

End LineKinds.

(** ** Order of the emitted statements *)

(** C1, as stated, fails: with the wrapper option set, the two-node network
    A -> B ends in [connect A.out B.in ;], [shader setCi root ;],
    [connect B.out root.color_input ;], so a connection statement stands
    before a declaration statement. *)
Lemma C1_counterexample :
  exists sh,
    fst (@OSLNodes.generate Samples.sampleSyntax
           (Samples.fixedGraph (Samples.graphOf [Samples.nodeA; Samples.nodeB]))
           "net" Samples.element (Samples.context true) Samples.world)
    = Returns (Some sh)
    /\ stage_code (shader_stage sh)
       = [ "param float in_amount 0.5 ;"; "shader implA A ;"; "shader implB B ;";
           "connect A.out B.in ;"; "shader setCi root ;";
           "connect B.out root.color_input ;" ]
    /\ ~ connects_follow_declarations (stage_code (shader_stage sh)).
Proof.
  eexists. split; [vm_compute; reflexivity|]. split; [reflexivity|].
  intros Horder.
  specialize (Horder 3 4 "connect A.out B.in ;" "shader setCi root ;"
                eq_refl eq_refl eq_refl eq_refl).
  lia.
Qed.

(** C1 (amended): in the text [generate] emits, the param and shader
    statements of the graph's nodes, in graph order, come first and the
    connect statements of the graph, in discovery order, come after all of
    them, whatever the order of the nodes.  With target "genoslnodes" and the
    wrapper option set, the statements [shader setCi root ;] and its connection
    follow the graph's connections; with the option clear, and always with
    target "genosl", every connect statement stands strictly after every
    declaration statement of the text. *)
Theorem C1_connections_follow_node_declarations
    {syntax : Syntax} {layer : GraphLayer}
    (name : string) (element : Element) (context : GenContext) (w : World) :
  let nodes := graph_nodes (ShaderGraph_create name element context) in
  (forall sh,
     fst (OSLNodes.generate name element context w) = Returns (Some sh) ->
     let decls := flat_map (OSLNodes.declarationLines (elem_document element)
                              (floatFormat w)) nodes in
     let conns := flat_map OSLNodes.nodeConnectLines nodes in
     stage_code (shader_stage sh)
     = decls ++ conns
       ++ (if oslNodesConnectCiWrapper context then OSLNodes.sinkLines nodes else [])
     /\ Forall (fun l => is_declaration l = true) decls
     /\ Forall (fun l => is_connect l = true) conns
     /\ connects_follow_declarations (decls ++ conns)
     /\ (oslNodesConnectCiWrapper context = false ->
         connects_follow_declarations (stage_code (shader_stage sh))))
  /\
  (forall sh,
     fst (OSL.generate name element context w) = Returns (Some sh) ->
     let decls := flat_map (OSL.declarationLines FloatFormatFixed) nodes in
     let conns := flat_map OSL.nodeConnectLines nodes in
     stage_code (shader_stage sh) = decls ++ conns
     /\ Forall (fun l => is_declaration l = true) decls
     /\ Forall (fun l => is_connect l = true) conns
     /\ connects_follow_declarations (stage_code (shader_stage sh))).
Proof.
  intros nodes. split.
  - intros sh Hgen decls conns.
    destruct (nodes_generate_returns _ _ _ _ _ Hgen) as (_ & -> & _).
    fold nodes decls conns.
    assert (Hd : Forall (fun l => is_declaration l = true) decls)
      by apply nodes_declarations_kind.
    assert (Hc : Forall (fun l => is_connect l = true) conns)
      by apply nodes_connects_kind.
    repeat split; try done.
    + by apply declarations_then_connects.
    + intros ->. rewrite app_nil_r. by apply declarations_then_connects.
  - intros sh Hgen decls conns.
    destruct (osl_generate_returns _ _ _ _ _ Hgen) as (_ & ->).
    fold nodes decls conns.
    assert (Hd : Forall (fun l => is_declaration l = true) decls)
      by apply osl_declarations_kind.
    assert (Hc : Forall (fun l => is_connect l = true) conns)
      by apply osl_connects_kind.
    repeat split; try done.
    by apply declarations_then_connects.
Qed.

(** The two-node network with B listed before A, wrapper clear: the connection
    still follows both declarations. *)
Lemma C1_witness :
  exists sh,
    fst (@OSLNodes.generate Samples.sampleSyntax
           (Samples.fixedGraph (Samples.graphOf [Samples.nodeB; Samples.nodeA]))
           "net" Samples.element (Samples.context false) Samples.world)
    = Returns (Some sh)
    /\ stage_code (shader_stage sh)
       = [ "shader implB B ;"; "param float in_amount 0.5 ;"; "shader implA A ;";
           "connect A.out B.in ;" ]
    /\ connects_follow_declarations (stage_code (shader_stage sh)).
Proof.
  eexists. split; [vm_compute; reflexivity|]. split; [reflexivity|].
  refine (proj2 (proj2 (proj2 (proj2
    (proj1 (@C1_connections_follow_node_declarations Samples.sampleSyntax
              (Samples.fixedGraph (Samples.graphOf [Samples.nodeB; Samples.nodeA]))
              "net" Samples.element (Samples.context false) Samples.world)
       _ _)))) _).
  - vm_compute. reflexivity.
  - reflexivity.
Defined.

(** ** Parameter statements *)

Lemma filter_all {A} (f : A -> bool) (ls : list A) :
  Forall (fun l => f l = true) ls -> List.filter f ls = ls.
Proof.
  induction 1 as [|l ls Hl _ IH]; [done|]. cbn [List.filter]. by rewrite Hl, IH.
Qed.

Lemma filter_none {A} (f : A -> bool) (ls : list A) :
  Forall (fun l => f l = false) ls -> List.filter f ls = [].
Proof.
  induction 1 as [|l ls Hl _ IH]; [done|]. cbn [List.filter]. by rewrite Hl, IH.
Qed.

Lemma filter_flat_map {A B} (f : B -> bool) (g h : A -> list B) (xs : list A) :
  (forall x, List.filter f (g x) = h x) ->
  List.filter f (flat_map g xs) = flat_map h xs.
Proof.
  intros Hgh. induction xs as [|x xs IH]; [done|].
  cbn [flat_map]. by rewrite List.filter_app, Hgh, IH.
Qed.

Section ParamFacts.
Context `{Syntax} `{GraphLayer}.

Lemma nodes_params_of_declarations document fmt nodes :
  List.filter is_param (flat_map (OSLNodes.declarationLines document fmt) nodes)
  = flat_map (fun node => flat_map (OSLNodes.paramLines fmt) (node_inputs node)) nodes.
Proof.
  apply filter_flat_map. intros node. unfold OSLNodes.declarationLines.
  rewrite List.filter_app, filter_all, filter_none, app_nil_r; [done| |].
  - eapply Forall_impl; [apply nodes_shaderLines_kind|]. apply shader_not_param.
  - apply Forall_flat_map, Forall_forall. intros input _. apply nodes_paramLines_kind.
Qed.

Lemma nodes_params_of_connects nodes :
  List.filter is_param (flat_map OSLNodes.nodeConnectLines nodes) = [].
Proof.
  apply filter_none. eapply Forall_impl; [apply nodes_connects_kind|].
  apply connect_not_param.
Qed.

Lemma nodes_params_of_sink nodes :
  List.filter is_param (OSLNodes.sinkLines nodes) = [].
Proof.
  unfold OSLNodes.sinkLines. destruct (last nodes); [|done].
  cbn [List.filter]. rewrite (shader_not_param "shader setCi root ;" eq_refl).
  rewrite connect_not_param; [done|]. apply prefix_append.
Qed.

Lemma osl_params_of_declarations fmt nodes :
  List.filter is_param (flat_map (OSL.declarationLines fmt) nodes)
  = flat_map (fun node => flat_map (OSL.paramLines fmt) (node_inputs node)) nodes.
Proof.
  apply filter_flat_map. intros node. unfold OSL.declarationLines.
  rewrite List.filter_app, filter_all, filter_none, app_nil_r; [done| |].
  - constructor; [|constructor]. apply shader_not_param, prefix_append.
  - apply Forall_flat_map, Forall_forall. intros input _. apply osl_paramLines_kind.
Qed.

Lemma osl_params_of_connects nodes :
  List.filter is_param (flat_map OSL.nodeConnectLines nodes) = [].
Proof.
  apply filter_none. eapply Forall_impl; [apply osl_connects_kind|].
  apply connect_not_param.
Qed.

End ParamFacts.

(** C2, as stated, fails in both revisions.  Node A's input [in.amount] is
    not default, is fed from the graph boundary, and holds the literal 0.5.
    The promised statement has the sanitized name and the value in fixed
    notation; with target "genoslnodes" the value is written as the format in
    effect has it, with target "genosl" the name is written as it is. *)
Lemma C2_counterexample :
  let layer := Samples.fixedGraph (Samples.graphOf [Samples.nodeA]) in
  let promised := "param float in_amount 0.500000 ;" in
  Forall (fun input =>
            @OSLNodes.promisedParamLines Samples.sampleSyntax input = [promised])
         (node_inputs Samples.nodeA)
  /\ (exists sh,
        fst (@OSLNodes.generate Samples.sampleSyntax layer
               "net" Samples.element (Samples.context false) Samples.world)
        = Returns (Some sh)
        /\ List.filter is_param (stage_code (shader_stage sh))
           = ["param float in_amount 0.5 ;"]
        /\ ~ In promised (stage_code (shader_stage sh)))
  /\ (exists sh,
        fst (@OSL.generate Samples.sampleSyntax layer
               "net" Samples.element (Samples.context false) Samples.world)
        = Returns (Some sh)
        /\ List.filter is_param (stage_code (shader_stage sh))
           = ["param float in.amount 0.500000 ;"]
        /\ ~ In promised (stage_code (shader_stage sh))).
Proof.
  intros layer promised. split; [|split].
  - repeat constructor.
  - eexists. split; [vm_compute; reflexivity|]. split; [reflexivity|].
    cbn [stage_code shader_stage In]. intros [Heq|[Heq|[]]]; discriminate Heq.
  - eexists. split; [vm_compute; reflexivity|]. split; [reflexivity|].
    cbn [stage_code shader_stage In]. intros [Heq|[Heq|[]]]; discriminate Heq.
Qed.

(** C2 (amended): the param statements of the emitted text are, in order,
    one per input on the literal path and none for any other input.  With
    target "genoslnodes" an input is on that path when it is not default, has
    no connection to a node of the graph, is not in the exclusion set and its
    value is not the sentinel; its statement carries the sanitized name and
    the value as the syntax writes it in the float format in effect at the
    call.  With target "genosl" an input is on that path when it has a value,
    is not default, is connected to the graph boundary and is not in the
    exclusion set; its statement carries the input's own name and the value
    in fixed notation. *)
Theorem C2_one_param_per_literal_input
    {syntax : Syntax} {layer : GraphLayer}
    (name : string) (element : Element) (context : GenContext) (w : World) :
  let nodes := graph_nodes (ShaderGraph_create name element context) in
  (forall sh,
     fst (OSLNodes.generate name element context w) = Returns (Some sh) ->
     List.filter is_param (stage_code (shader_stage sh))
     = flat_map (fun node =>
         flat_map (fun input =>
           if OSLNodes.takesLiteralPath (floatFormat w) input
           then [OSLNodes.paramString (getTypeName (in_type input))
                   (makeValidName (in_name input))
                   (getValue (floatFormat w) input)]
           else []) (node_inputs node)) nodes)
  /\
  (forall sh,
     fst (OSL.generate name element context w) = Returns (Some sh) ->
     List.filter is_param (stage_code (shader_stage sh))
     = flat_map (fun node =>
         flat_map (fun input =>
           if OSL.takesLiteralPath input
           then ["param " +:+ getTypeName (in_type input) +:+ " " +:+ in_name input
                 +:+ " " +:+ getValue FloatFormatFixed input +:+ " ;"]
           else []) (node_inputs node)) nodes).
Proof.
  intros nodes. split; intros sh Hgen.
  - destruct (nodes_generate_returns _ _ _ _ _ Hgen) as (_ & -> & _). fold nodes.
    rewrite !List.filter_app, nodes_params_of_declarations, nodes_params_of_connects.
    destruct (oslNodesConnectCiWrapper context);
      [rewrite nodes_params_of_sink|]; cbn [List.filter]; by rewrite !app_nil_r.
  - destruct (osl_generate_returns _ _ _ _ _ Hgen) as (_ & ->). fold nodes.
    rewrite List.filter_app, osl_params_of_declarations, osl_params_of_connects.
    by rewrite app_nil_r.
Qed.

(** Node A alone, in both revisions: one param statement each. *)
Lemma C2_witness :
  let layer := Samples.fixedGraph (Samples.graphOf [Samples.nodeA]) in
  (exists sh,
     fst (@OSLNodes.generate Samples.sampleSyntax layer
            "net" Samples.element (Samples.context true) Samples.world)
     = Returns (Some sh)
     /\ List.filter is_param (stage_code (shader_stage sh))
        = ["param float in_amount 0.5 ;"])
  /\ (exists sh,
        fst (@OSL.generate Samples.sampleSyntax layer
               "net" Samples.element (Samples.context true) Samples.world)
        = Returns (Some sh)
        /\ List.filter is_param (stage_code (shader_stage sh))
           = ["param float in.amount 0.500000 ;"]).
Proof.
  intros layer.
  pose proof (@C2_one_param_per_literal_input Samples.sampleSyntax layer
                "net" Samples.element (Samples.context true) Samples.world)
    as [Hnodes Hosl].
  split.
  - eexists. split; [vm_compute; reflexivity|].
    rewrite Hnodes by (vm_compute; reflexivity). reflexivity.
  - eexists. split; [vm_compute; reflexivity|].
    rewrite Hosl by (vm_compute; reflexivity). reflexivity.
Defined.

(** ** Missing implementations *)

(** C3, as stated, fails: node C's definition has no implementation for any
    target.  With target "genosl" the generator looks nothing up and returns a
    shader that declares C; with target "genoslnodes" it reads through the
    null element before it reaches [if (!impl)]. *)
Lemma C3_counterexample :
  let layer := Samples.fixedGraph (Samples.graphOf [Samples.nodeC]) in
  (forall target nodeDef,
     getNodeDef Samples.library (node_nodeDefName Samples.nodeC) = Some nodeDef ->
     getImplementation nodeDef target = None)
  /\ (exists sh,
        fst (@OSL.generate Samples.sampleSyntax layer
               "net" Samples.element (Samples.context false) Samples.world)
        = Returns (Some sh)
        /\ stage_code (shader_stage sh) = ["shader C C ;"])
  /\ fst (@OSLNodes.generate Samples.sampleSyntax layer
            "net" Samples.element (Samples.context false) Samples.world)
     = Undefined NullInterfaceElement
  /\ fst (@OSL.generate Samples.sampleSyntax layer
            "net" Samples.element (Samples.context false) Samples.world)
     <> Returns None
  /\ fst (@OSLNodes.generate Samples.sampleSyntax layer
            "net" Samples.element (Samples.context false) Samples.world)
     <> Returns None.
Proof.
  intros layer. split; [|split; [|split; [|split]]];
    [| | |vm_compute; discriminate..].
  - intros target nodeDef Hnd.
    change (Some {| nd_name := "ND_C"; nd_implementations := ∅ |} = Some nodeDef) in Hnd.
    injection Hnd as <-. apply lookup_empty.
  - eexists. split; [vm_compute; reflexivity|reflexivity].
  - vm_compute. reflexivity.
Qed.

(** C3 (amended): with target "genoslnodes", when the nodes before some node
    resolve to implementations and that node's definition yields, for the
    target, an element that is not an implementation, [generate] returns no
    shader.  With target "genosl" no implementation is looked up and
    [generate] never returns null. *)
Theorem C3_null_on_element_without_implementation
    {syntax : Syntax} {layer : GraphLayer}
    (name : string) (element : Element) (context : GenContext) (w : World) :
  (forall before node after,
     graph_nodes (ShaderGraph_create name element context) = before ++ node :: after ->
     Forall (fun n => is_Some (OSLNodes.resolveImplementation (elem_document element) n))
            before ->
     OSLNodes.resolvesToOtherElement (elem_document element) node ->
     fst (OSLNodes.generate name element context w) = Returns None)
  /\ fst (OSL.generate name element context w) <> Returns None.
Proof.
  split.
  - intros before node after Hnodes Hbefore Hother.
    unfold OSLNodes.generate, OSLNodes.generateFrom. cbn [fst].
    change (graph_nodes (shader_graph (OSLNodes.createShader name element context)))
      with (graph_nodes (ShaderGraph_create name element context)).
    rewrite Hnodes, (nodes_walk_other _ _ _ _ _ _ Hbefore Hother). reflexivity.
  - unfold OSL.generate. cbn [ScopedFloatFormatting_enter fst].
    apply osl_generateFrom_not_null.
Qed.

(** A between-node D, implemented by a node graph, stops the generation. *)
Lemma C3_witness :
  fst (@OSLNodes.generate Samples.sampleSyntax
         (Samples.fixedGraph
            (Samples.graphOf [Samples.nodeA; Samples.nodeD; Samples.nodeB]))
         "net" Samples.element (Samples.context false) Samples.world)
  = Returns None.
Proof.
  refine (proj1 (@C3_null_on_element_without_implementation Samples.sampleSyntax
            (Samples.fixedGraph
               (Samples.graphOf [Samples.nodeA; Samples.nodeD; Samples.nodeB]))
            "net" Samples.element (Samples.context false) Samples.world)
          [Samples.nodeA] Samples.nodeD [Samples.nodeB] eq_refl _ _).
  - constructor; [|constructor]. vm_compute. eauto.
  - eexists _, _. split; [vm_compute; reflexivity|].
    split; [vm_compute; reflexivity|reflexivity].
Defined.

(** ** The wrapper *)

Section WrapperFacts.
Context `{Syntax} `{GraphLayer}.

Lemma nodes_visitNode_fault document fmt st node f :
  OSLNodes.visitNode document fmt st node = Undefined f ->
  f = NullNodeDef \/ f = NullInterfaceElement.
Proof.
  unfold OSLNodes.visitNode. destruct (fold_left _ _ _) as [stage conns].
  destruct (getNodeDef _ _) as [nodeDef|]; [|intros [= <-]; by left].
  destruct (getImplementation _ _) as [e|]; [|intros [= <-]; by right].
  by destruct (asA_Implementation e).
Qed.

Lemma nodes_walk_fault document fmt nodes st f :
  OSLNodes.walkNodes document fmt nodes st = Undefined f ->
  f = NullNodeDef \/ f = NullInterfaceElement.
Proof.
  revert st. induction nodes as [|node nodes IH]; intros st Hw; [done|].
  cbn [OSLNodes.walkNodes] in Hw.
  destruct (OSLNodes.visitNode document fmt st node) as [[st1|]|f1] eqn:Hv.
  - by eapply IH.
  - done.
  - injection Hw as <-. by eapply nodes_visitNode_fault.
Qed.

(** The unassigned [lastOutput] is read exactly when the wrapper is on and the
    graph has no node. *)
Lemma nodes_generateFrom_uninitialised shader document context fmt :
  OSLNodes.generateFrom shader document context fmt = Undefined UninitialisedLastOutput
  <-> oslNodesConnectCiWrapper context = true /\ graph_nodes (shader_graph shader) = [].
Proof.
  split.
  - intros Hg.
    destruct (OSLNodes.walkNodes document fmt (graph_nodes (shader_graph shader))
                {| OSLNodes.ws_stage := shader_stage shader;
                   OSLNodes.ws_connections := [];
                   OSLNodes.ws_osoPaths := [];
                   OSLNodes.ws_lastNodeName := "";
                   OSLNodes.ws_lastOutput := None |}) as [[st|]|f] eqn:Hw.
    + apply nodes_walk_inv in Hw.
      rewrite (nodes_generateFrom_resolved _ _ _ _ Hw) in Hg.
      destruct (oslNodesConnectCiWrapper context); [|done].
      case_bool_decide; [done|done].
    + unfold OSLNodes.generateFrom in Hg. by rewrite Hw in Hg.
    + unfold OSLNodes.generateFrom in Hg. rewrite Hw in Hg. cbn [bindO] in Hg.
      injection Hg as ->. by destruct (nodes_walk_fault _ _ _ _ _ Hw).
  - intros [Hwrap Hnil].
    rewrite nodes_generateFrom_resolved by (rewrite Hnil; constructor).
    rewrite Hwrap, Hnil. by rewrite bool_decide_eq_true_2.
Qed.

End WrapperFacts.

(** C10: with the wrapper option set, [generate] reads the node name and the
    primary output that only the loop over the nodes assigns.  The read of
    [lastOutput] is of a pointer never assigned exactly when the graph has no
    node; and whenever a shader is returned, its last two statements are the
    wrapper's, written from the last node's name and primary output. *)
Theorem C10_wrapper_needs_a_node
    {syntax : Syntax} {layer : GraphLayer}
    (name : string) (element : Element) (context : GenContext) (w : World) :
  oslNodesConnectCiWrapper context = true ->
  let nodes := graph_nodes (ShaderGraph_create name element context) in
  (fst (OSLNodes.generate name element context w) = Undefined UninitialisedLastOutput
   <-> nodes = [])
  /\ (forall sh,
        fst (OSLNodes.generate name element context w) = Returns (Some sh) ->
        exists node text,
          last nodes = Some node
          /\ stage_code (shader_stage sh)
             = text ++ [ "shader setCi root ;";
                         OSLNodes.connectString (node_name node)
                           (out_name (node_output0 node)) "root"
                           (td_name (out_type (node_output0 node)) +:+ "_input") ]).
Proof.
  intros Hwrap nodes. split.
  - unfold OSLNodes.generate. cbn [fst].
    rewrite nodes_generateFrom_uninitialised. tauto.
  - intros sh Hgen.
    destruct (nodes_generate_returns _ _ _ _ _ Hgen) as (_ & Hcode & _).
    fold nodes in Hcode. rewrite Hwrap in Hcode.
    destruct (last nodes) as [node|] eqn:Hlast.
    + exists node, (flat_map (OSLNodes.declarationLines (elem_document element)
                                (floatFormat w)) nodes
                    ++ flat_map OSLNodes.nodeConnectLines nodes).
      split; [done|]. rewrite Hcode. unfold OSLNodes.sinkLines. rewrite Hlast.
      by rewrite app_assoc.
    + apply last_None in Hlast.
      assert (Hun : fst (OSLNodes.generate name element context w)
                    = Undefined UninitialisedLastOutput).
      { unfold OSLNodes.generate. cbn [fst].
        by apply nodes_generateFrom_uninitialised. }
      congruence.
Qed.

(** The empty graph with the wrapper on. *)
Lemma C10_witness :
  fst (@OSLNodes.generate Samples.sampleSyntax
         (Samples.fixedGraph (Samples.graphOf []))
         "net" Samples.element (Samples.context true) Samples.world)
  = Undefined UninitialisedLastOutput.
Proof.
  apply (proj1 (@C10_wrapper_needs_a_node Samples.sampleSyntax
                  (Samples.fixedGraph (Samples.graphOf []))
                  "net" Samples.element (Samples.context true) Samples.world
                  eq_refl)).
  reflexivity.
Defined.

(** ** The set of required paths *)

Lemma string_lt_irrefl x : ~ string_lt x x.
Proof.
  unfold string_lt. intros Hlt.
  pose proof (String.compare_antisym x x) as Hanti.
  rewrite Hlt in Hanti. discriminate Hanti.
Qed.

Lemma string_lt_asym x y : string_lt x y -> ~ string_lt y x.
Proof.
  unfold string_lt. intros Hxy Hyx.
  rewrite String.compare_antisym, Hxy in Hyx. discriminate Hyx.
Qed.

Lemma string_gt_lt x y : String.compare x y = Gt -> string_lt y x.
Proof. unfold string_lt. intros Hgt. by rewrite String.compare_antisym, Hgt. Qed.

Lemma string_lt_le x y : string_lt x y -> String.le x y.
Proof. unfold string_lt, String.le, String.leb. by intros ->. Qed.

Lemma string_lt_trans x y z : string_lt x y -> string_lt y z -> string_lt x z.
Proof.
  intros Hxy Hyz.
  assert (Hle : String.le x z).
  { etrans; apply string_lt_le; eassumption. }
  unfold String.le, String.leb in Hle. unfold string_lt.
  destruct (String.compare x z) eqn:Hxz; [|done|done].
  apply String.compare_eq_iff in Hxz as ->.
  by destruct (string_lt_asym _ _ Hxy).
Qed.

Lemma elem_of_set_insert x' x s : x' ∈ set_insert x s <-> x' = x \/ x' ∈ s.
Proof.
  induction s as [|y rest IH]; cbn [set_insert].
  - rewrite list_elem_of_singleton, elem_of_nil. tauto.
  - destruct (String.compare x y) eqn:Hc.
    + apply String.compare_eq_iff in Hc as ->. rewrite elem_of_cons. tauto.
    + rewrite !elem_of_cons. tauto.
    + rewrite !elem_of_cons, IH. tauto.
Qed.

Lemma set_insert_sorted x s :
  StronglySorted string_lt s -> StronglySorted string_lt (set_insert x s).
Proof.
  induction 1 as [|y rest Hrest IH Hy]; cbn [set_insert].
  - repeat constructor.
  - destruct (String.compare x y) eqn:Hc.
    + by constructor.
    + constructor; [by constructor|]. constructor; [done|].
      eapply Forall_impl; [exact Hy|]. intros z. by apply string_lt_trans.
    + constructor; [done|]. apply Forall_forall. intros z [->|Hz]%elem_of_set_insert.
      * by apply string_gt_lt.
      * rewrite Forall_forall in Hy. by apply Hy.
Qed.

Lemma elem_of_fold_set_insert x l s :
  x ∈ fold_left (fun s x => set_insert x s) l s <-> x ∈ l \/ x ∈ s.
Proof.
  revert s. induction l as [|y l IH]; intros s; cbn [fold_left].
  - rewrite elem_of_nil. tauto.
  - rewrite IH, elem_of_set_insert, elem_of_cons. tauto.
Qed.

Lemma fold_set_insert_sorted l s :
  StronglySorted string_lt s ->
  StronglySorted string_lt (fold_left (fun s x => set_insert x s) l s).
Proof.
  revert s. induction l as [|y l IH]; intros s Hs; cbn [fold_left]; [done|].
  by apply IH, set_insert_sorted.
Qed.

Lemma elem_of_set_of_list x l : x ∈ set_of_list l <-> x ∈ l.
Proof. unfold set_of_list. rewrite elem_of_fold_set_insert, elem_of_nil. tauto. Qed.

Lemma set_of_list_sorted l : StronglySorted string_lt (set_of_list l).
Proof. apply fold_set_insert_sorted. constructor. Qed.

Lemma sorted_NoDup s : StronglySorted string_lt s -> NoDup s.
Proof.
  induction 1 as [|y rest Hrest IH Hy]; constructor; [|done].
  intros Hin. rewrite Forall_forall in Hy. by apply (string_lt_irrefl y), Hy.
Qed.

(** The set does not depend on the order the paths were inserted in. *)
Lemma set_of_list_permutation l1 l2 : l1 ≡ₚ l2 -> set_of_list l1 = set_of_list l2.
Proof.
  intros Hperm.
  apply (StronglySorted_unique_strong string_lt).
  - intros x1 x2 _ _ H12 H21. by destruct (string_lt_asym _ _ H12).
  - apply set_of_list_sorted.
  - apply set_of_list_sorted.
  - apply NoDup_Permutation; [apply sorted_NoDup, set_of_list_sorted..|].
    intros x. rewrite !elem_of_set_of_list. by rewrite Hperm.
Qed.

Lemma string_app_assoc (s t u : string) : (s +:+ t) +:+ u = s +:+ t +:+ u.
Proof.
  induction s as [|a s IH]; [done|].
  change (String a ((s +:+ t) +:+ u) = String a (s +:+ t +:+ u)). by rewrite IH.
Qed.

Lemma string_app_nil_r (s : string) : s +:+ "" = s.
Proof.
  induction s as [|a s IH]; [done|].
  change (String a (s +:+ "") = String a s). by rewrite IH.
Qed.

Lemma joinOsoPaths_step context paths osoPathStr :
  fst (fold_left
         (fun '(osoPathStr, separator) osoPath =>
            (osoPathStr +:+ separator +:+ resolveSourceFile context osoPath, ","))
         paths (osoPathStr, ","))
  = osoPathStr
    +:+ fold_right (fun r t => "," +:+ r +:+ t) "" (map (resolveSourceFile context) paths).
Proof.
  revert osoPathStr.
  induction paths as [|p paths IH]; intros acc; cbn [fold_left fold_right map fst].
  - by rewrite string_app_nil_r.
  - rewrite IH. by rewrite !string_app_assoc.
Qed.

Lemma concat_comma x xs :
  String.concat "," (x :: xs) = x +:+ fold_right (fun r t => "," +:+ r +:+ t) "" xs.
Proof.
  revert x. induction xs as [|y ys IH]; intros x.
  - cbn [String.concat fold_right]. by rewrite string_app_nil_r.
  - change (String.concat "," (x :: y :: ys))
      with (x +:+ "," +:+ String.concat "," (y :: ys)).
    by rewrite IH.
Qed.

(** The joining loop is a comma-separated concatenation. *)
Lemma joinOsoPaths_concat context paths :
  OSLNodes.joinOsoPaths context paths
  = String.concat "," (map (resolveSourceFile context) paths).
Proof.
  unfold OSLNodes.joinOsoPaths. destruct paths as [|p paths]; [done|].
  cbn [fold_left map]. rewrite joinOsoPaths_step, concat_comma. reflexivity.
Qed.

Section PathFacts.
Context `{Syntax}.

Lemma elem_of_requiredPaths document nodes p :
  p ∈ OSLNodes.requiredPaths document nodes
  <-> exists node impl,
        node ∈ nodes
        /\ OSLNodes.resolveImplementation document node = Some impl
        /\ impl_file impl = p.
Proof.
  unfold OSLNodes.requiredPaths. rewrite list_elem_of_In, in_flat_map. split.
  - intros (node & Hin & Hp). exists node.
    destruct (OSLNodes.resolveImplementation document node) as [impl|]; [|done].
    exists impl. apply list_elem_of_In in Hin.
    destruct Hp as [<-|[]]. done.
  - intros (node & impl & Hin & Hres & <-). exists node.
    rewrite Hres. split; [by apply list_elem_of_In|by left].
Qed.

Lemma requiredPaths_permutation document nodes nodes' :
  nodes' ≡ₚ nodes ->
  OSLNodes.requiredPaths document nodes' ≡ₚ OSLNodes.requiredPaths document nodes.
Proof. intros Hperm. unfold OSLNodes.requiredPaths. by rewrite Hperm. Qed.

End PathFacts.

(** C6: the paths recorded for the shader form a set without duplicates,
    held in increasing order; the attribute [osoPath] is the resolved
    paths of that set, in that order, joined by commas; the set holds exactly
    the source files of the nodes' implementations; and a graph with the same
    nodes in any other order yields the same attribute. *)
Theorem C6_required_paths_form_a_sorted_set
    {syntax : Syntax} {layer : GraphLayer}
    (name : string) (element : Element) (context : GenContext) (w : World)
    (sh : Shader) :
  fst (OSLNodes.generate name element context w) = Returns (Some sh) ->
  let document := elem_document element in
  let nodes := graph_nodes (ShaderGraph_create name element context) in
  let paths := set_of_list (OSLNodes.requiredPaths document nodes) in
  shader_attributes sh !! "osoPath"
  = Some (String.concat "," (map (resolveSourceFile context) paths))
  /\ NoDup paths
  /\ StronglySorted string_lt paths
  /\ (forall p,
        p ∈ paths
        <-> exists node impl,
              node ∈ nodes
              /\ OSLNodes.resolveImplementation document node = Some impl
              /\ impl_file impl = p)
  /\ (forall layer' : GraphLayer,
        graph_nodes (@ShaderGraph_create layer' name element context) ≡ₚ nodes ->
        exists sh',
          fst (@OSLNodes.generate syntax layer' name element context w)
          = Returns (Some sh')
          /\ shader_attributes sh' !! "osoPath" = shader_attributes sh !! "osoPath").
Proof.
  intros Hgen document nodes paths.
  destruct (nodes_generate_returns _ _ _ _ _ Hgen) as (Hall & Hcode & Hattr).
  fold document nodes paths in Hall, Hcode, Hattr.
  assert (Hlook : shader_attributes sh !! "osoPath"
                  = Some (String.concat "," (map (resolveSourceFile context) paths))).
  { rewrite Hattr, lookup_singleton_eq. by rewrite joinOsoPaths_concat. }
  split; [exact Hlook|].
  split; [apply sorted_NoDup, set_of_list_sorted|].
  split; [apply set_of_list_sorted|].
  split.
  { intros p. unfold paths. by rewrite elem_of_set_of_list, elem_of_requiredPaths. }
  intros layer' Hperm.
  set (nodes' := graph_nodes (@ShaderGraph_create layer' name element context)) in *.
  assert (Hall' : Forall (fun node =>
            is_Some (OSLNodes.resolveImplementation document node)) nodes').
  { by rewrite Hperm. }
  assert (Hnil : oslNodesConnectCiWrapper context && bool_decide (nodes' = []) = false).
  { destruct (oslNodesConnectCiWrapper context) eqn:Hwrap; [|done].
    cbn [andb]. apply bool_decide_eq_false_2. intros Hnil'.
    rewrite Hnil' in Hperm. apply Permutation_nil in Hperm.
    assert (Hun : fst (@OSLNodes.generate syntax layer name element context w)
                  = Undefined UninitialisedLastOutput).
    { unfold OSLNodes.generate. cbn [fst].
      by apply nodes_generateFrom_uninitialised. }
    rewrite Hun in Hgen. discriminate Hgen. }
  pose proof (@nodes_generateFrom_resolved syntax
                (@OSLNodes.createShader layer' name element context)
                document context (floatFormat w) Hall') as Hres.
  change (graph_nodes (shader_graph (@OSLNodes.createShader layer' name element context)))
    with nodes' in Hres.
  rewrite Hnil in Hres.
  eexists. split; [exact Hres|].
  rewrite Hlook. cbn [setAttribute shader_attributes].
  rewrite lookup_insert_eq, joinOsoPaths_concat.
  unfold paths.
  by rewrite (set_of_list_permutation _ _ (requiredPaths_permutation document _ _ Hperm)).
Qed.

(** The two-node network in both orders: one attribute. *)
Lemma C6_witness :
  exists sh sh',
    fst (@OSLNodes.generate Samples.sampleSyntax
           (Samples.fixedGraph (Samples.graphOf [Samples.nodeB; Samples.nodeA]))
           "net" Samples.element (Samples.context false) Samples.world)
    = Returns (Some sh)
    /\ shader_attributes sh !! "osoPath"
       = Some "/opt/materialx/libraries/stdlib/genoslnodes/a.osl,/opt/materialx/libraries/stdlib/genoslnodes/b.osl"
    /\ fst (@OSLNodes.generate Samples.sampleSyntax
              (Samples.fixedGraph (Samples.graphOf [Samples.nodeA; Samples.nodeB]))
              "net" Samples.element (Samples.context false) Samples.world)
       = Returns (Some sh')
    /\ shader_attributes sh' !! "osoPath" = shader_attributes sh !! "osoPath".
Proof.
  eexists.
  pose proof (@C6_required_paths_form_a_sorted_set Samples.sampleSyntax
                (Samples.fixedGraph (Samples.graphOf [Samples.nodeB; Samples.nodeA]))
                "net" Samples.element (Samples.context false) Samples.world _
                ltac:(vm_compute; reflexivity)) as (Hattr & _ & _ & _ & Hperm).
  destruct (Hperm (Samples.fixedGraph (Samples.graphOf [Samples.nodeA; Samples.nodeB])))
    as (sh' & Hgen' & Hsame).
  { apply perm_swap. }
  exists sh'. split; [vm_compute; reflexivity|].
  split; [vm_compute; reflexivity|]. split; [exact Hgen'|exact Hsame].
Defined.

(** ** The published interface *)

Lemma lookup_addToBlock name port blocks block :
  blocks !! name = Some block ->
  addToBlock name port blocks !! name = Some (block ++ [port]).
Proof. intros Hb. unfold addToBlock. by rewrite lookup_alter_eq, Hb. Qed.

Lemma publishUniforms_lookup graph name blocks block :
  blocks !! name = Some block ->
  publishUniforms graph name blocks !! name
  = Some (block ++ map PortOfInputSocket
                       (List.filter (isUsedAndEditable graph) (graph_inputSockets graph))).
Proof.
  unfold publishUniforms. generalize (graph_inputSockets graph). intros sockets.
  revert blocks block.
  induction sockets as [|s sockets IH]; intros blocks block Hb;
    cbn [fold_left List.filter map].
  - by rewrite app_nil_r.
  - destruct (isUsedAndEditable graph s).
    + rewrite (IH _ _ (lookup_addToBlock _ _ _ _ Hb)). cbn [map].
      by rewrite <- app_assoc.
    + by apply IH.
Qed.

Lemma publishOutputs_lookup graph name blocks block :
  blocks !! name = Some block ->
  publishOutputs graph name blocks !! name
  = Some (block ++ map PortOfOutputSocket (graph_outputSockets graph)).
Proof.
  unfold publishOutputs. generalize (graph_outputSockets graph). intros sockets.
  revert blocks block.
  induction sockets as [|s sockets IH]; intros blocks block Hb; cbn [fold_left map].
  - by rewrite app_nil_r.
  - rewrite (IH _ _ (lookup_addToBlock _ _ _ _ Hb)). by rewrite <- app_assoc.
Qed.

Lemma isUsedAndEditable_spec graph s :
  isUsedAndEditable graph s = true
  <-> 0 < length (isock_connections s) /\ graph_isEditable graph s = true.
Proof.
  unfold isUsedAndEditable. rewrite andb_true_iff, negb_true_iff, Nat.eqb_neq.
  split; intros [Hlen Hed]; (split; [lia|done]).
Qed.

(** C7: [createShader] appends to the uniform block exactly the graph's
    input sockets that have at least one connection and are editable, in
    socket order, and appends to the output block every output socket of the
    graph, whatever its connection; the two revisions build the same
    shader. *)
Theorem C7_published_interface
    {layer : GraphLayer} (name : string) (element : Element) (context : GenContext)
    (uniforms outputs : VariableBlock) :
  let graph := ShaderGraph_create name element context in
  let before := blocksBeforePublishing OSLNodes.UNIFORMS OSLNodes.INPUTS
                                       OSLNodes.OUTPUTS graph context in
  let sh := OSLNodes.createShader name element context in
  let added := map PortOfInputSocket
                 (List.filter (isUsedAndEditable graph) (graph_inputSockets graph)) in
  blocks_uniforms before !! OSLNodes.UNIFORMS = Some uniforms ->
  blocks_outputs before !! OSLNodes.OUTPUTS = Some outputs ->
  blocks_uniforms (stage_blocks (shader_stage sh)) !! OSLNodes.UNIFORMS
  = Some (uniforms ++ added)
  /\ (forall s,
        PortOfInputSocket s ∈ added
        <-> s ∈ graph_inputSockets graph
            /\ 0 < length (isock_connections s)
            /\ graph_isEditable graph s = true)
  /\ blocks_outputs (stage_blocks (shader_stage sh)) !! OSLNodes.OUTPUTS
     = Some (outputs ++ map PortOfOutputSocket (graph_outputSockets graph))
  /\ (forall s,
        s ∈ graph_outputSockets graph ->
        PortOfOutputSocket s ∈ map PortOfOutputSocket (graph_outputSockets graph))
  /\ OSL.createShader name element context = sh.
Proof.
  intros graph before sh added Hu Ho.
  split; [|split; [|split; [|split]]].
  - by apply publishUniforms_lookup.
  - intros s. unfold added.
    rewrite list_elem_of_In, in_map_iff. split.
    + intros (s' & [= ->] & Hin). apply filter_In in Hin as [Hin Hs].
      split; [by apply list_elem_of_In|]. by apply isUsedAndEditable_spec.
    + intros (Hin & Hs). exists s. split; [done|].
      apply filter_In. split; [by apply list_elem_of_In|].
      by apply isUsedAndEditable_spec.
  - by apply publishOutputs_lookup.
  - intros s Hin. rewrite list_elem_of_In. apply in_map. by apply list_elem_of_In.
  - reflexivity.
Qed.

(** The sample graph: the used socket is published, the unused one is not,
    the output socket is. *)
Lemma C7_witness :
  let sh := @OSLNodes.createShader
              (Samples.fixedGraph (Samples.graphOf [Samples.nodeA]))
              "net" Samples.element (Samples.context false) in
  blocks_uniforms (stage_blocks (shader_stage sh)) !! "u"
  = Some [PortOfInputSocket Samples.amountSocket]
  /\ blocks_outputs (stage_blocks (shader_stage sh)) !! "o"
     = Some [PortOfOutputSocket Samples.outSocket].
Proof.
  intros sh.
  destruct (@C7_published_interface
              (Samples.fixedGraph (Samples.graphOf [Samples.nodeA]))
              "net" Samples.element (Samples.context false) [] []
              ltac:(vm_compute; reflexivity) ltac:(vm_compute; reflexivity))
    as (Hu & _ & Ho & _).
  split; [exact Hu|exact Ho].
Defined.

(** ** Repeated generation *)

(** C9: generating twice, the second time in the world the first call
    leaves behind, gives the same outcome and so the same text; each call
    leaves the float format as it found it, and with target "genosl" the
    outcome does not depend on the format the call starts in. *)
Theorem C9_generation_is_repeatable
    {syntax : Syntax} {layer : GraphLayer}
    (name : string) (element : Element) (context : GenContext) (w : World) :
  (snd (OSLNodes.generate name element context w) = w
   /\ OSLNodes.generate name element context
        (snd (OSLNodes.generate name element context w))
      = OSLNodes.generate name element context w
   /\ forall sh1 sh2,
        fst (OSLNodes.generate name element context w) = Returns (Some sh1) ->
        fst (OSLNodes.generate name element context
               (snd (OSLNodes.generate name element context w)))
        = Returns (Some sh2) ->
        getSourceCode sh1 = getSourceCode sh2)
  /\
  (snd (OSL.generate name element context w) = w
   /\ OSL.generate name element context (snd (OSL.generate name element context w))
      = OSL.generate name element context w
   /\ (forall w',
         fst (OSL.generate name element context w')
         = fst (OSL.generate name element context w))
   /\ forall sh1 sh2,
        fst (OSL.generate name element context w) = Returns (Some sh1) ->
        fst (OSL.generate name element context
               (snd (OSL.generate name element context w)))
        = Returns (Some sh2) ->
        getSourceCode sh1 = getSourceCode sh2).
Proof.
  assert (Hnodes : snd (OSLNodes.generate name element context w) = w) by reflexivity.
  assert (Hosl : snd (OSL.generate name element context w) = w) by (by destruct w).
  split.
  - split; [exact Hnodes|]. rewrite Hnodes. split; [reflexivity|].
    intros sh1 sh2 H1 H2. rewrite H1 in H2. by injection H2 as ->.
  - split; [exact Hosl|]. rewrite Hosl. split; [reflexivity|].
    split; [reflexivity|].
    intros sh1 sh2 H1 H2. rewrite H1 in H2. by injection H2 as ->.
Qed.

(** The two-node network, generated twice with target "genosl": both calls
    return a shader, and the two texts agree. *)
Lemma C9_witness :
  let generate := @OSL.generate Samples.sampleSyntax
                    (Samples.fixedGraph (Samples.graphOf [Samples.nodeA; Samples.nodeB]))
                    "net" Samples.element (Samples.context false) in
  match fst (generate Samples.world), fst (generate (snd (generate Samples.world))) with
  | Returns (Some sh1), Returns (Some sh2) => getSourceCode sh1 = getSourceCode sh2
  | _, _ => False
  end.
Proof.
  intros generate.
  pose proof (proj2 (proj2 (proj2 (proj2
    (@C9_generation_is_repeatable Samples.sampleSyntax
       (Samples.fixedGraph (Samples.graphOf [Samples.nodeA; Samples.nodeB]))
       "net" Samples.element (Samples.context false) Samples.world))))) as Hsame.
  fold generate in Hsame.
  destruct (fst (generate Samples.world)) as [[sh1|]|f1] eqn:H1;
    [|vm_compute in H1; discriminate H1..].
  destruct (fst (generate (snd (generate Samples.world)))) as [[sh2|]|f2] eqn:H2;
    [|vm_compute in H2; discriminate H2..].
  by apply Hsame.
Defined.

(** ** The batch driver *)

Section DriverFacts.
Import LibsToOso.
Context `{Toolchain}.
Variables (outputPath argPrefix : string).

Lemma removeChild_other doc name extra :
  getChild doc name = None ->
  removeChild (doc ++ extra) name = doc ++ removeChild extra name.
Proof.
  induction doc as [|c doc IH]; cbn [getChild removeChild app]; [done|].
  destruct (String.eqb (child_name c) name); [done|].
  intros Hnone. by rewrite IH.
Qed.

(** Adding an instance under a free name and removing it by that name gives
    the document back. *)
Lemma removeChild_addNodeInstance doc nodeDef name doc' :
  addNodeInstance doc nodeDef name = Some doc' ->
  doc' = doc ++ [ChildNode name (nd_name nodeDef)]
  /\ removeChild doc' name = doc.
Proof.
  unfold addNodeInstance. destruct (getChild doc name) eqn:Hfree; [done|].
  intros [= <-]. split; [done|].
  rewrite removeChild_other by done. cbn [removeChild child_name].
  by rewrite String.eqb_refl, app_nil_r.
Qed.

Lemma handler_doc nodeName exc st :
  librariesDoc (handler nodeName exc st) = librariesDoc st.
Proof. reflexivity. Qed.

(** The guarded block leaves the document alone, appends the diagnostics of
    what was thrown, and raises the flag exactly when something was thrown. *)
Lemma guarded_effect nodeName st :
  let thrown :=
    match generateSource (librariesDoc st) nodeName with
    | inl exc => Some exc
    | inr source => compileOSL (oslFilePath outputPath nodeName) source
    end in
  librariesDoc (guarded outputPath nodeName st) = librariesDoc st
  /\ logFile (guarded outputPath nodeName st)
     = logFile st ++ from_option (diagnostics nodeName) [] thrown
  /\ hasFailed (guarded outputPath nodeName st)
     = hasFailed st || bool_decide (is_Some thrown).
Proof.
  unfold guarded.
  destruct (generateSource (librariesDoc st) nodeName) as [exc|source].
  - cbn. by rewrite orb_true_r.
  - destruct (compileOSL _ source) as [exc|]; cbn.
    + by rewrite orb_true_r.
    + by rewrite app_nil_r, orb_false_r.
Qed.

(** One pass through the loop body, in terms of the definition taken on its
    own. *)
Lemma iteration_effect st nodeDef :
  let doc := librariesDoc st in
  match iteration outputPath argPrefix st nodeDef with
  | None => itemResult outputPath argPrefix doc nodeDef = NameTaken
  | Some st' =>
      itemResult outputPath argPrefix doc nodeDef <> NameTaken
      /\ librariesDoc st' = doc
      /\ logFile st' = logFile st ++ itemLog outputPath argPrefix doc nodeDef
      /\ hasFailed st' = hasFailed st || itemFailed outputPath argPrefix doc nodeDef
  end.
Proof.
  intros doc. unfold iteration, itemLog, itemFailed, itemResult. fold doc.
  destruct (getImplementation nodeDef getTarget) as [impl|].
  2:{ cbn. by rewrite orb_false_r. }
  destruct (addNodeInstance doc nodeDef (publicName argPrefix nodeDef)) as [doc'|] eqn:Hadd;
    [|done].
  destruct (removeChild_addNodeInstance _ _ _ _ Hadd) as [_ Hremove].
  destruct (guarded_effect (publicName argPrefix nodeDef) (withDoc doc' st))
    as (Hdoc & Hlog & Hfail).
  cbn [withDoc librariesDoc logFile hasFailed] in Hdoc, Hlog, Hfail.
  cbn [withDoc librariesDoc logFile hasFailed].
  rewrite Hdoc, Hremove, Hlog, Hfail.
  destruct (generateSource doc' (publicName argPrefix nodeDef)) as [exc|source];
    [done|].
  by destruct (compileOSL _ source).
Qed.

Lemma iteration_doc st nodeDef st' :
  iteration outputPath argPrefix st nodeDef = Some st' ->
  librariesDoc st' = librariesDoc st.
Proof.
  intros Hit. pose proof (iteration_effect st nodeDef) as Heff.
  cbn zeta in Heff. rewrite Hit in Heff. by destruct Heff as (_ & ? & _).
Qed.

(** The whole loop, in terms of the definitions taken on their own against
    the document the loop starts with. *)
Lemma loop_effect nodeDefs st :
  let doc := librariesDoc st in
  match loop outputPath argPrefix nodeDefs st with
  | None => Exists (fun nd => itemResult outputPath argPrefix doc nd = NameTaken) nodeDefs
  | Some st' =>
      Forall (fun nd => itemResult outputPath argPrefix doc nd <> NameTaken) nodeDefs
      /\ librariesDoc st' = doc
      /\ logFile st' = logFile st ++ flat_map (itemLog outputPath argPrefix doc) nodeDefs
      /\ hasFailed st'
         = hasFailed st || existsb (itemFailed outputPath argPrefix doc) nodeDefs
  end.
Proof.
  revert st. induction nodeDefs as [|nd nodeDefs IH]; intros st doc; cbn [loop].
  - cbn. by rewrite app_nil_r, orb_false_r.
  - pose proof (iteration_effect st nd) as Hit. fold doc in Hit.
    destruct (iteration outputPath argPrefix st nd) as [st1|]; [|by left].
    destruct Hit as (Hok & Hdoc & Hlog & Hfail).
    specialize (IH st1). cbn zeta in IH. rewrite Hdoc in IH.
    destruct (loop outputPath argPrefix nodeDefs st1) as [st'|]; [|by right].
    destruct IH as (Hall & Hdoc' & Hlog' & Hfail').
    split; [by constructor|]. split; [done|].
    cbn [flat_map existsb].
    rewrite Hlog', Hlog, Hfail', Hfail, <- app_assoc, orb_assoc. done.
Qed.

Lemma loop_app before after st :
  loop outputPath argPrefix (before ++ after) st
  = match loop outputPath argPrefix before st with
    | Some mid => loop outputPath argPrefix after mid
    | None => None
    end.
Proof.
  revert st. induction before as [|nd before IH]; intros st; cbn [loop app]; [done|].
  destruct (iteration outputPath argPrefix st nd); [apply IH|done].
Qed.

End DriverFacts.

Section ExitFacts.
Import LibsToOso.
Context `{Toolchain}.
Variables (outputPath argPrefix : string).

Lemma itemResult_skipped doc nodeDef :
  itemResult outputPath argPrefix doc nodeDef = Skipped
  <-> ~ eligible nodeDef.
Proof.
  unfold itemResult, eligible.
  destruct (getImplementation nodeDef getTarget) as [impl|].
  - split; [|intros []; eauto].
    destruct (addNodeInstance _ _ _); [|done].
    destruct (generateSource _ _); [done|]. by destruct (compileOSL _ _).
  - split; [|done]. intros _ [? ?]. done.
Qed.

Lemma itemFailed_true doc nodeDef :
  itemFailed outputPath argPrefix doc nodeDef = true
  <-> exists exc, itemResult outputPath argPrefix doc nodeDef = Failed exc.
Proof.
  unfold itemFailed. destruct (itemResult outputPath argPrefix doc nodeDef);
    split; try done; try (by intros [? ?]). eauto.
Qed.

Lemma existsb_itemFailed doc nodeDefs :
  existsb (itemFailed outputPath argPrefix doc) nodeDefs = true
  <-> Exists (fun nd => exists exc, itemResult outputPath argPrefix doc nd = Failed exc)
             nodeDefs.
Proof.
  rewrite existsb_exists, Exists_exists. split.
  - intros (nd & Hin & Hf). exists nd. split; [by apply list_elem_of_In|].
    by apply itemFailed_true.
  - intros (nd & Hin & Hf). exists nd. split; [by apply list_elem_of_In|].
    by apply itemFailed_true.
Qed.

(** The run ends cleanly exactly when no definition's name is taken and none
    fails. *)
Lemma batch_zero doc files :
  (exists st, batch outputPath argPrefix doc files = Some (0%Z, st))
  <-> Forall (fun nd => eligible nd -> itemResult outputPath argPrefix doc nd = Clean)
             (getNodeDefs doc).
Proof.
  unfold batch.
  pose proof (loop_effect outputPath argPrefix (getNodeDefs doc) (initialState doc files))
    as Heff.
  cbn [initialState librariesDoc logFile hasFailed orb app] in Heff. cbn zeta in Heff.
  destruct (loop outputPath argPrefix (getNodeDefs doc) (initialState doc files))
    as [st'|].
  - destruct Heff as (Hnames & _ & _ & Hfail). split.
    + intros [st Hst]. destruct (hasFailed st') eqn:Hf; [done|].
      apply Forall_forall. intros nd Hin Hel.
      rewrite Forall_forall in Hnames. specialize (Hnames nd Hin).
      assert (Hnf : itemFailed outputPath argPrefix doc nd = false).
      { destruct (itemFailed outputPath argPrefix doc nd) eqn:Hnd; [|done].
        symmetry in Hfail. apply not_true_iff_false in Hfail. destruct Hfail.
        apply existsb_exists. exists nd. split; [by apply list_elem_of_In|done]. }
      unfold itemFailed in Hnf.
      destruct (itemResult outputPath argPrefix doc nd) eqn:Hres; try done.
      by apply itemResult_skipped in Hres.
    + intros Hall. exists st'. destruct (hasFailed st') eqn:Hf; [|done].
      symmetry in Hfail. apply existsb_itemFailed, Exists_exists in Hfail.
      destruct Hfail as (nd & Hin & exc & Hexc).
      rewrite Forall_forall in Hall. rewrite Hall in Hexc; [done|done|].
      destruct (decide (eligible nd)) as [|Hne]; [done|].
      pose proof (proj2 (itemResult_skipped doc nd) Hne). congruence.
  - split; [by intros [? ?]|]. intros Hall.
    apply Exists_exists in Heff as (nd & Hin & Htaken).
    rewrite Forall_forall in Hall. rewrite Hall in Htaken; [done|done|].
    destruct (decide (eligible nd)) as [|Hne]; [done|].
    pose proof (proj2 (itemResult_skipped doc nd) Hne). congruence.
Qed.

(** A run that comes to its end has written, definition by definition, what
    each one gives on its own, and exits with 1 exactly when one failed. *)
Lemma batch_exit doc files code st :
  batch outputPath argPrefix doc files = Some (code, st) ->
  logFile st = flat_map (itemLog outputPath argPrefix doc) (getNodeDefs doc)
  /\ librariesDoc st = doc
  /\ (code = 1%Z
      <-> Exists (fun nd => exists exc,
                    itemResult outputPath argPrefix doc nd = Failed exc)
                 (getNodeDefs doc))
  /\ (code = 0%Z \/ code = 1%Z).
Proof.
  unfold batch.
  pose proof (loop_effect outputPath argPrefix (getNodeDefs doc) (initialState doc files))
    as Heff.
  cbn [initialState librariesDoc logFile hasFailed orb app] in Heff. cbn zeta in Heff.
  destruct (loop outputPath argPrefix (getNodeDefs doc) (initialState doc files))
    as [st'|]; [|done].
  destruct Heff as (_ & Hdoc & Hlog & Hfail). intros [= <- <-].
  split; [done|]. split; [done|].
  rewrite <- existsb_itemFailed, <- Hfail.
  destruct (hasFailed st'); split; try done; try (by right); try (by left).
Qed.

(** The instance cannot be added exactly when the definition has an
    implementation for the target and its public name is taken in the
    document. *)
Lemma itemResult_nameTaken doc nodeDef :
  itemResult outputPath argPrefix doc nodeDef = NameTaken
  <-> eligible nodeDef /\ is_Some (getChild doc (publicName argPrefix nodeDef)).
Proof.
  unfold itemResult, eligible, addNodeInstance.
  destruct (getImplementation nodeDef getTarget) as [impl|].
  2:{ split; [done|]. by intros [[? ?] _]. }
  destruct (getChild doc (publicName argPrefix nodeDef)) as [c|].
  - split; [eauto|done].
  - split; [|by intros [_ [? ?]]].
    destruct (generateSource _ _); [done|]. by destruct (compileOSL _ _).
Qed.

(** The loop comes to its end exactly when no definition it works on finds
    its public name taken: nothing the generator or the compiler throws ends
    it. *)
Lemma batch_finishes doc files :
  (exists code st, batch outputPath argPrefix doc files = Some (code, st))
  <-> Forall (fun nd => eligible nd -> getChild doc (publicName argPrefix nd) = None)
             (getNodeDefs doc).
Proof.
  unfold batch.
  pose proof (loop_effect outputPath argPrefix (getNodeDefs doc) (initialState doc files))
    as Heff.
  cbn [initialState librariesDoc] in Heff. cbn zeta in Heff.
  destruct (loop outputPath argPrefix (getNodeDefs doc) (initialState doc files))
    as [st'|].
  - destruct Heff as (Hnames & _). split; [|eauto]. intros _.
    eapply Forall_impl; [exact Hnames|]. intros nd Hok Hel.
    destruct (getChild doc (publicName argPrefix nd)) as [c|] eqn:Hc; [|done].
    destruct Hok. apply itemResult_nameTaken. split; [done|]. rewrite Hc. eauto.
  - split; [by intros (? & ? & ?)|]. intros Hfree.
    apply Exists_exists in Heff as (nd & Hin & Htaken).
    apply itemResult_nameTaken in Htaken as [Hel [c Hc]].
    rewrite Forall_forall in Hfree. rewrite (Hfree nd Hin Hel) in Hc. discriminate Hc.
Qed.

(** What the guarded block throws is caught inside the pass: the pass ends
    with the handler's lines in the log, the flag raised and the instance
    removed. *)
Lemma iteration_caught st nodeDef impl doc' exc :
  let nodeName := publicName argPrefix nodeDef in
  getImplementation nodeDef getTarget = Some impl ->
  addNodeInstance (librariesDoc st) nodeDef nodeName = Some doc' ->
  (generateSource doc' nodeName = inl exc
   \/ exists source,
        generateSource doc' nodeName = inr source
        /\ compileOSL (oslFilePath outputPath nodeName) source = Some exc) ->
  exists st',
    iteration outputPath argPrefix st nodeDef = Some st'
    /\ logFile st' = logFile st ++ diagnostics nodeName exc
    /\ hasFailed st' = true
    /\ librariesDoc st' = librariesDoc st.
Proof.
  intros nodeName Himpl Hadd Hthrown.
  assert (Hres : itemResult outputPath argPrefix (librariesDoc st) nodeDef = Failed exc).
  { unfold itemResult. fold nodeName. rewrite Himpl, Hadd.
    destruct Hthrown as [->|(source & -> & ->)]; done. }
  pose proof (iteration_effect outputPath argPrefix st nodeDef) as Heff.
  cbn zeta in Heff.
  destruct (iteration outputPath argPrefix st nodeDef) as [st'|];
    [|rewrite Hres in Heff; discriminate Heff].
  destruct Heff as (_ & Hdoc & Hlog & Hfail). exists st'.
  unfold itemLog in Hlog. unfold itemFailed in Hfail. rewrite Hres in Hlog, Hfail.
  split; [done|]. split; [done|]. split; [|done].
  by rewrite Hfail, orb_true_r.
Qed.

End ExitFacts.

(** C4: the run exits with 0 exactly when every definition that has an
    implementation for the target is generated and compiled without anything
    thrown.  What a definition throws, in generation or in compilation, is
    caught: the pass through the loop body ends, the log receives the
    handler's lines (its heading, the exception's message and, for a render
    error, every line of its error log), the flag is raised and the loop goes
    on with the definitions after it.  The run comes to its end whatever the
    generator and the compiler throw (only the exception of [addNodeInstance]
    on a taken name, raised outside the [try], ends it); it then exits with 1
    exactly when some definition failed, and its log is the log of every
    definition in turn, the ones after a failing definition included. *)
Theorem C4_exit_code_reflects_failures
    {toolchain : LibsToOso.Toolchain} (outputPath argPrefix : string)
    (doc : Document) (files : gmap string string) :
  let nodeDefs := getNodeDefs doc in
  let result := LibsToOso.itemResult outputPath argPrefix doc in
  let itemLog := LibsToOso.itemLog outputPath argPrefix doc in
  let free :=
    Forall (fun nd => LibsToOso.eligible nd ->
                      getChild doc (LibsToOso.publicName argPrefix nd) = None) nodeDefs in
  ((exists st, LibsToOso.batch outputPath argPrefix doc files = Some (0%Z, st))
   <-> Forall (fun nd => LibsToOso.eligible nd -> result nd = LibsToOso.Clean) nodeDefs)
  /\ (forall code st,
        LibsToOso.batch outputPath argPrefix doc files = Some (code, st) ->
        LibsToOso.logFile st = flat_map itemLog nodeDefs
        /\ (code = 1%Z
            <-> Exists (fun nd => exists exc, result nd = LibsToOso.Failed exc) nodeDefs)
        /\ (code = 0%Z \/ code = 1%Z))
  /\ (forall nd what errorLog,
        result nd = LibsToOso.Failed (LibsToOso.RenderError what errorLog) ->
        exists heading, itemLog nd = heading :: what :: errorLog)
  /\ (forall nd what,
        result nd = LibsToOso.Failed (LibsToOso.OtherException what) ->
        exists heading, itemLog nd = [heading; what])
  /\ ((exists code st, LibsToOso.batch outputPath argPrefix doc files = Some (code, st))
      <-> free)
  /\ (forall st nd rest impl doc' exc,
        let nodeName := LibsToOso.publicName argPrefix nd in
        getImplementation nd LibsToOso.getTarget = Some impl ->
        LibsToOso.addNodeInstance (LibsToOso.librariesDoc st) nd nodeName = Some doc' ->
        (LibsToOso.generateSource doc' nodeName = inl exc
         \/ exists source,
              LibsToOso.generateSource doc' nodeName = inr source
              /\ LibsToOso.compileOSL (LibsToOso.oslFilePath outputPath nodeName) source
                 = Some exc) ->
        exists st',
          LibsToOso.iteration outputPath argPrefix st nd = Some st'
          /\ LibsToOso.loop outputPath argPrefix (nd :: rest) st
             = LibsToOso.loop outputPath argPrefix rest st'
          /\ LibsToOso.logFile st'
             = LibsToOso.logFile st ++ LibsToOso.diagnostics nodeName exc
          /\ LibsToOso.hasFailed st' = true
          /\ LibsToOso.librariesDoc st' = LibsToOso.librariesDoc st)
  /\ (forall before nd after exc,
        nodeDefs = before ++ nd :: after ->
        free ->
        result nd = LibsToOso.Failed exc ->
        exists st,
          LibsToOso.batch outputPath argPrefix doc files = Some (1%Z, st)
          /\ LibsToOso.logFile st
             = flat_map itemLog before
               ++ LibsToOso.diagnostics (LibsToOso.publicName argPrefix nd) exc
               ++ flat_map itemLog after).
Proof.
  intros nodeDefs result itemLog free.
  split; [apply batch_zero|]. split; [|split; [|split; [|split; [|split]]]].
  - intros code st Hb.
    destruct (batch_exit _ _ _ _ _ _ Hb) as (Hlog & _ & Hcode & Hrange). done.
  - intros nd what errorLog Hres. unfold itemLog, LibsToOso.itemLog. fold result.
    rewrite Hres. cbn [LibsToOso.diagnostics]. eauto.
  - intros nd what Hres. unfold itemLog, LibsToOso.itemLog. fold result.
    rewrite Hres. cbn [LibsToOso.diagnostics]. eauto.
  - apply batch_finishes.
  - intros st nd rest impl doc' exc nodeName Himpl Hadd Hthrown.
    destruct (iteration_caught outputPath argPrefix st nd impl doc' exc Himpl Hadd Hthrown)
      as (st' & Hit & Hlog & Hfail & Hdoc).
    exists st'. split; [done|]. split; [|done].
    cbn [LibsToOso.loop]. by rewrite Hit.
  - intros before nd after exc Hdefs Hfree Hres.
    destruct (proj2 (batch_finishes outputPath argPrefix doc files) Hfree)
      as (code & st & Hb).
    destruct (batch_exit _ _ _ _ _ _ Hb) as (Hlog & _ & Hcode & _).
    assert (code = 1%Z) as ->.
    { apply Hcode. fold nodeDefs. rewrite Hdefs. apply Exists_app. right. left. eauto. }
    exists st. split; [done|].
    rewrite Hlog. fold nodeDefs itemLog. rewrite Hdefs, flat_map_app. cbn [flat_map].
    f_equal. f_equal. unfold itemLog, LibsToOso.itemLog. fold result. by rewrite Hres.
Qed.

(** The sample library with a generator that throws on A and a compiler that
    fails on B: both are logged, C is skipped, D goes through, and the run
    comes to its end with 1. *)
Lemma C4_witness :
  exists st,
    @LibsToOso.batch Samples.failingToolchain "out" "" Samples.library ∅ = Some (1%Z, st)
    /\ LibsToOso.logFile st
       = [ "Failed to codegen/compile the following node to OSL: A";
           "Could not find a matching implementation";
           "Encountered a codegen/compilation related exception for the following node: B";
           "Command return code returned an error";
           "out/B.osl:1: error: syntax error";
           "The following `NodeDef` does not provide a valid OSL implementation, and will be skipped: C" ].
Proof.
  pose proof (proj2 (proj2 (proj2 (proj2 (proj2 (proj2
    (@C4_exit_code_reflects_failures Samples.failingToolchain "out" ""
       Samples.library ∅)))))))
    as Hrun.
  cbn zeta in Hrun.
  destruct (Hrun []
              {| nd_name := "ND_A";
                 nd_implementations :=
                   {[ "genoslnodes" :=
                        IsImplementation
                          {| impl_function := "implA";
                             impl_file := "stdlib/genoslnodes/a.osl" |} ]} |}
              [ {| nd_name := "ND_B";
                   nd_implementations :=
                     {[ "genoslnodes" :=
                          IsImplementation
                            {| impl_function := "implB";
                               impl_file := "stdlib/genoslnodes/b.osl" |} ]} |};
                {| nd_name := "ND_C"; nd_implementations := ∅ |};
                {| nd_name := "ND_D";
                   nd_implementations := {[ "genoslnodes" := IsNodeGraph "NG_D" ]} |} ]
              (LibsToOso.OtherException "Could not find a matching implementation")
              eq_refl
              ltac:(repeat constructor; intros _; vm_compute; reflexivity)
              ltac:(vm_compute; reflexivity))
    as (st & Hbatch & Hlog).
  exists st. split; [exact Hbatch|].
  rewrite Hlog. vm_compute. reflexivity.
Defined.



(** C8: every pass through the loop body that comes to its end leaves the
    document as it found it.  For a definition the driver works on, the
    instance is appended under the public name, the guarded block runs on the
    document with the instance, whether or not it throws, and removing the
    child of that name gives the first document back; so every pass of a run
    starts from the document the run started with. *)
Theorem C8_document_restored_each_iteration
    {toolchain : LibsToOso.Toolchain} (outputPath argPrefix : string) :
  (forall st nodeDef st',
     LibsToOso.iteration outputPath argPrefix st nodeDef = Some st' ->
     LibsToOso.librariesDoc st' = LibsToOso.librariesDoc st)
  /\ (forall st nodeDef st',
        LibsToOso.eligible nodeDef ->
        LibsToOso.iteration outputPath argPrefix st nodeDef = Some st' ->
        let nodeName := LibsToOso.publicName argPrefix nodeDef in
        let doc := LibsToOso.librariesDoc st in
        let doc' := doc ++ [ChildNode nodeName (nd_name nodeDef)] in
        LibsToOso.addNodeInstance doc nodeDef nodeName = Some doc'
        /\ LibsToOso.librariesDoc
             (LibsToOso.guarded outputPath nodeName (LibsToOso.withDoc doc' st)) = doc'
        /\ LibsToOso.removeChild doc' nodeName = doc)
  /\ (forall before after st st',
        LibsToOso.loop outputPath argPrefix (before ++ after) st = Some st' ->
        exists mid,
          LibsToOso.loop outputPath argPrefix before st = Some mid
          /\ LibsToOso.librariesDoc mid = LibsToOso.librariesDoc st
          /\ LibsToOso.loop outputPath argPrefix after mid = Some st').
Proof.
  split; [|split].
  - intros st nodeDef st'. apply iteration_doc.
  - intros st nodeDef st' [impl Himpl] Hit nodeName doc doc'.
    unfold LibsToOso.iteration in Hit. rewrite Himpl in Hit. fold nodeName doc in Hit.
    destruct (LibsToOso.addNodeInstance doc nodeDef nodeName) as [doc1|] eqn:Hadd;
      [|done].
    destruct (removeChild_addNodeInstance _ _ _ _ Hadd) as [-> Hremove].
    split; [done|]. split; [|done].
    by destruct (guarded_effect outputPath nodeName (LibsToOso.withDoc doc' st))
      as (-> & _).
  - intros before after st st' Hloop. rewrite loop_app in Hloop.
    pose proof (loop_effect outputPath argPrefix before st) as Heff. cbn zeta in Heff.
    destruct (LibsToOso.loop outputPath argPrefix before st) as [mid|]; [|done].
    exists mid. destruct Heff as (_ & Hdoc & _). done.
Qed.

(** Definition ND_B of the sample library fails to compile; the document is
    the library again when the pass ends. *)
Lemma C8_witness :
  match @LibsToOso.iteration Samples.sampleToolchain "out" ""
          (LibsToOso.initialState Samples.library ∅)
          {| nd_name := "ND_B";
             nd_implementations :=
               {[ "genoslnodes" :=
                    IsImplementation {| impl_function := "implB";
                                        impl_file := "stdlib/genoslnodes/b.osl" |} ]} |}
  with
  | Some st' => LibsToOso.librariesDoc st' = Samples.library
  | None => False
  end.
Proof.
  destruct (@LibsToOso.iteration Samples.sampleToolchain "out" ""
              (LibsToOso.initialState Samples.library ∅) _) as [st'|] eqn:Hit.
  - exact (proj1 (@C8_document_restored_each_iteration Samples.sampleToolchain "out" "")
             _ _ _ Hit).
  - vm_compute in Hit. discriminate Hit.
Defined.

(** * Further properties of the generators *)

Lemma connect_not_shader l : is_connect l = true -> is_shader l = false.
Proof.
  intros Hc. apply connect_not_declaration in Hc.
  unfold is_declaration in Hc. by apply orb_false_elim in Hc as [_ ?].
Qed.

Lemma param_not_connect l : is_param l = true -> is_connect l = false.
Proof. intros [l' ->]%prefix_head. reflexivity. Qed.

Lemma shader_not_connect l : is_shader l = true -> is_connect l = false.
Proof. intros [l' ->]%prefix_head. reflexivity. Qed.

Section StatementFacts.
Context `{Syntax} `{GraphLayer}.

Lemma nodes_shaders_of_declarations document fmt nodes :
  List.filter is_shader (flat_map (OSLNodes.declarationLines document fmt) nodes)
  = flat_map (OSLNodes.shaderLines document) nodes.
Proof.
  apply filter_flat_map. intros node. unfold OSLNodes.declarationLines.
  rewrite List.filter_app, filter_none, filter_all; [done| |].
  - apply nodes_shaderLines_kind.
  - apply Forall_flat_map, Forall_forall. intros input _.
    eapply Forall_impl; [apply nodes_paramLines_kind|]. apply param_not_shader.
Qed.

Lemma nodes_shaders_of_connects nodes :
  List.filter is_shader (flat_map OSLNodes.nodeConnectLines nodes) = [].
Proof.
  apply filter_none. eapply Forall_impl; [apply nodes_connects_kind|].
  apply connect_not_shader.
Qed.

Lemma nodes_connects_of_declarations document fmt nodes :
  List.filter is_connect (flat_map (OSLNodes.declarationLines document fmt) nodes) = [].
Proof.
  apply filter_none. eapply Forall_impl; [apply nodes_declarations_kind|].
  apply declaration_not_connect.
Qed.

Lemma shaderLines_length document nodes :
  Forall (fun node => is_Some (OSLNodes.resolveImplementation document node)) nodes ->
  length (flat_map (OSLNodes.shaderLines document) nodes) = length nodes.
Proof.
  induction 1 as [|node nodes [impl Himpl] _ IH]; [done|].
  cbn [flat_map]. rewrite length_app, IH. unfold OSLNodes.shaderLines.
  by rewrite Himpl.
Qed.

Lemma osl_shaders_of_declarations fmt nodes :
  List.filter is_shader (flat_map (OSL.declarationLines fmt) nodes)
  = map (fun node => "shader " +:+ stripND (node_nodeDefName node) +:+ " "
                     +:+ node_name node +:+ " ;") nodes.
Proof.
  induction nodes as [|node nodes IH]; [done|].
  cbn [flat_map map]. rewrite List.filter_app, IH. unfold OSL.declarationLines.
  rewrite List.filter_app, filter_none.
  - cbn [List.filter app]. unfold is_shader at 1. by rewrite prefix_append.
  - apply Forall_flat_map, Forall_forall. intros input _.
    eapply Forall_impl; [apply osl_paramLines_kind|]. apply param_not_shader.
Qed.

Lemma osl_shaders_of_connects nodes :
  List.filter is_shader (flat_map OSL.nodeConnectLines nodes) = [].
Proof.
  apply filter_none. eapply Forall_impl; [apply osl_connects_kind|].
  apply connect_not_shader.
Qed.

Lemma osl_connects_of_declarations fmt nodes :
  List.filter is_connect (flat_map (OSL.declarationLines fmt) nodes) = [].
Proof.
  apply filter_none. eapply Forall_impl; [apply osl_declarations_kind|].
  apply declaration_not_connect.
Qed.

End StatementFacts.

(** X1: the text of a returned shader holds exactly one shader statement per
    node of the graph, in graph order and under the node's own name; with
    target "genoslnodes" it names the implementation's function and, with the
    wrapper option set, [shader setCi root ;] is one more at the end; with
    target "genosl" it names the node definition without its "ND_" prefix. *)
Theorem X1_one_shader_statement_per_node
    {syntax : Syntax} {layer : GraphLayer}
    (name : string) (element : Element) (context : GenContext) (w : World) :
  let nodes := graph_nodes (ShaderGraph_create name element context) in
  (forall sh,
     fst (OSLNodes.generate name element context w) = Returns (Some sh) ->
     exists impls,
       Forall2 (fun node impl =>
                  OSLNodes.resolveImplementation (elem_document element) node = Some impl)
               nodes impls
       /\ List.filter is_shader (stage_code (shader_stage sh))
          = zip_with (fun node impl =>
                        "shader " +:+ impl_function impl +:+ " " +:+ node_name node +:+ " ;")
                     nodes impls
            ++ (if oslNodesConnectCiWrapper context then ["shader setCi root ;"] else [])
       /\ length (List.filter is_shader (stage_code (shader_stage sh)))
          = length nodes + (if oslNodesConnectCiWrapper context then 1 else 0))
  /\
  (forall sh,
     fst (OSL.generate name element context w) = Returns (Some sh) ->
     List.filter is_shader (stage_code (shader_stage sh))
     = map (fun node => "shader " +:+ stripND (node_nodeDefName node) +:+ " "
                        +:+ node_name node +:+ " ;") nodes).
Proof.
  intros nodes. split; intros sh Hgen.
  - destruct (nodes_generate_returns _ _ _ _ _ Hgen) as (Hall & -> & _).
    fold nodes in Hall |- *.
    rewrite !List.filter_app, nodes_shaders_of_declarations, nodes_shaders_of_connects.
    cbn [app].
    assert (Hsink : List.filter is_shader
                      (if oslNodesConnectCiWrapper context
                       then OSLNodes.sinkLines nodes else [])
                    = if oslNodesConnectCiWrapper context
                      then ["shader setCi root ;"] else []).
    { destruct (oslNodesConnectCiWrapper context) eqn:Hwrap; [|done].
      unfold OSLNodes.sinkLines. destruct (last nodes) as [node|] eqn:Hlast.
      - cbn [List.filter]. change (is_shader "shader setCi root ;") with true.
        cbn iota. rewrite connect_not_shader; [done|apply prefix_append].
      - apply last_None in Hlast.
        assert (Hsome : exists sh', fst (OSLNodes.generate name element context w)
                                    = Returns (Some sh')) by eauto.
        apply nodes_generate_total in Hsome as [_ Hne]. by destruct (Hne Hwrap). }
    rewrite Hsink. clear Hsink Hgen.
    assert (Himpls : exists impls,
               Forall2 (fun node impl =>
                          OSLNodes.resolveImplementation (elem_document element) node
                          = Some impl) nodes impls
               /\ flat_map (OSLNodes.shaderLines (elem_document element)) nodes
                  = zip_with (fun node impl =>
                                "shader " +:+ impl_function impl +:+ " "
                                +:+ node_name node +:+ " ;") nodes impls).
    { induction Hall as [|node rest [impl Himpl] _ (impls & Hf2 & Heq)].
      - exists []. split; [constructor|done].
      - exists (impl :: impls). split; [by constructor|].
        cbn [flat_map zip_with]. rewrite Heq. unfold OSLNodes.shaderLines.
        by rewrite Himpl. }
    destruct Himpls as (impls & Hf2 & Heq). exists impls.
    split; [done|]. split; [by rewrite Heq|].
    rewrite length_app, (shaderLines_length _ _ Hall).
    by destruct (oslNodesConnectCiWrapper context).
  - destruct (osl_generate_returns _ _ _ _ _ Hgen) as (_ & ->). fold nodes.
    rewrite List.filter_app, osl_shaders_of_declarations, osl_shaders_of_connects.
    by rewrite app_nil_r.
Qed.

(** The two-node network with the wrapper on: three shader statements. *)
Lemma X1_witness :
  match fst (@OSLNodes.generate Samples.sampleSyntax
               (Samples.fixedGraph (Samples.graphOf [Samples.nodeA; Samples.nodeB]))
               "net" Samples.element (Samples.context true) Samples.world) with
  | Returns (Some sh) =>
      length (List.filter is_shader (stage_code (shader_stage sh))) = 3
  | _ => False
  end.
Proof.
  destruct (fst (@OSLNodes.generate Samples.sampleSyntax
               (Samples.fixedGraph (Samples.graphOf [Samples.nodeA; Samples.nodeB]))
               "net" Samples.element (Samples.context true) Samples.world))
    as [[sh|]|f] eqn:Hgen; [|vm_compute in Hgen; discriminate Hgen..].
  destruct (proj1 (@X1_one_shader_statement_per_node Samples.sampleSyntax
                     (Samples.fixedGraph (Samples.graphOf [Samples.nodeA; Samples.nodeB]))
                     "net" Samples.element (Samples.context true) Samples.world)
              sh Hgen) as (impls & _ & _ & Hlen).
  exact Hlen.
Defined.

Section MoreGenerateFacts.
Context `{Syntax} `{GraphLayer}.

Lemma nodes_connects_of_sink nodes :
  List.filter is_connect (OSLNodes.sinkLines nodes)
  = match last nodes with
    | Some node =>
        [OSLNodes.connectString (node_name node) (out_name (node_output0 node)) "root"
           (td_name (out_type (node_output0 node)) +:+ "_input")]
    | None => []
    end.
Proof.
  unfold OSLNodes.sinkLines. destruct (last nodes) as [node|]; [|done].
  cbn [List.filter]. change (is_connect "shader setCi root ;") with false.
  cbn iota. unfold is_connect at 1, OSLNodes.connectString at 1.
  by rewrite prefix_append.
Qed.

(** The shader a call with target "genoslnodes" returns is the one
    [createShader] built, with text appended and one attribute set. *)
Lemma nodes_generate_shape name element context w sh :
  fst (OSLNodes.generate name element context w) = Returns (Some sh) ->
  exists lines paths,
    sh = setAttribute "osoPath" paths
           (withStage (OSLNodes.createShader name element context)
              (emitLines lines
                 (shader_stage (OSLNodes.createShader name element context)))).
Proof.
  intros Hgen. unfold OSLNodes.generate in Hgen. cbn [fst] in Hgen.
  pose proof (nodes_generateFrom_inv _ _ _ _ _ Hgen) as Hall.
  rewrite (nodes_generateFrom_resolved _ _ _ _ Hall) in Hgen.
  destruct (_ && _); [done|]. injection Hgen as <-. eauto.
Qed.

Lemma osl_generate_shape name element context w sh :
  fst (OSL.generate name element context w) = Returns (Some sh) ->
  exists lines,
    sh = withStage (OSL.createShader name element context)
           (emitLines lines (shader_stage (OSL.createShader name element context))).
Proof.
  intros Hgen. unfold OSL.generate in Hgen.
  cbn [ScopedFloatFormatting_enter fst floatFormat] in Hgen.
  pose proof (osl_generateFrom_inv _ _ _ Hgen) as Hall.
  rewrite (osl_generateFrom_connected _ _ Hall) in Hgen.
  injection Hgen as <-. eauto.
Qed.

(** The walk past resolved nodes comes to the next node. *)
Lemma nodes_walk_past document fmt before rest st :
  Forall (fun n => is_Some (OSLNodes.resolveImplementation document n)) before ->
  exists st1, OSLNodes.walkNodes document fmt (before ++ rest) st
              = OSLNodes.walkNodes document fmt rest st1.
Proof.
  intros Hall. revert st.
  induction Hall as [|n ns [impl Himpl] _ IH]; intros st; cbn [app]; [eauto|].
  cbn [OSLNodes.walkNodes]. rewrite (nodes_visitNode_resolved _ _ _ _ _ Himpl).
  apply IH.
Qed.

Lemma nodes_visitNode_undefined document fmt st node :
  getNodeDef document (node_nodeDefName node) = None ->
  OSLNodes.visitNode document fmt st node = Undefined NullNodeDef.
Proof.
  intros Hnd. unfold OSLNodes.visitNode.
  destruct (fold_left _ _ _) as [stage conns]. by rewrite Hnd.
Qed.

Lemma osl_visitInputs_fault fmt name inputs acc f :
  OSL.visitInputs fmt name inputs acc = Undefined f -> f = NullConnection.
Proof.
  revert acc. induction inputs as [|input inputs IH]; intros [stage conns] Hv; [done|].
  cbn [OSL.visitInputs] in Hv. rewrite osl_visitInput in Hv.
  destruct (OSL.readsNullConnection input); cbn [bindO] in Hv; [congruence|].
  by eapply IH.
Qed.

Lemma osl_walk_fault fmt nodes acc f :
  OSL.walkNodes fmt nodes acc = Undefined f -> f = NullConnection.
Proof.
  revert acc. induction nodes as [|node nodes IH]; intros acc Hw; [done|].
  cbn [OSL.walkNodes] in Hw. unfold OSL.visitNode in Hw.
  destruct (OSL.visitInputs fmt (node_name node) (node_inputs node) acc)
    as [[stage conns]|f1] eqn:Hv; cbn [bindO] in Hw.
  - by eapply IH.
  - injection Hw as <-. by eapply osl_visitInputs_fault.
Qed.

End MoreGenerateFacts.

(** X2: the connect statements of a returned shader are, in order, one per
    input that is connected to a node of the graph and reaches the test of its
    connection: with target "genoslnodes" every input not marked default, the
    upstream output's name and the input's name sanitized, followed by the
    wrapper's connection when the option is set; with target "genosl" every
    input that has a value and is not marked default, the names as they are.
    The exclusion set plays no part. *)
Theorem X2_one_connect_per_connected_input
    {syntax : Syntax} {layer : GraphLayer}
    (name : string) (element : Element) (context : GenContext) (w : World) :
  let nodes := graph_nodes (ShaderGraph_create name element context) in
  (forall sh,
     fst (OSLNodes.generate name element context w) = Returns (Some sh) ->
     List.filter is_connect (stage_code (shader_stage sh))
     = flat_map (fun node =>
         flat_map (fun input =>
           if in_isDefault input then []
           else match in_connection input with
                | Some {| out_node := OwnerNode up; out_name := outName |} =>
                    [OSLNodes.connectString up (makeValidName outName)
                       (node_name node) (makeValidName (in_name input))]
                | _ => []
                end) (node_inputs node)) nodes
       ++ (if oslNodesConnectCiWrapper context
           then match last nodes with
                | Some node =>
                    [OSLNodes.connectString (node_name node)
                       (out_name (node_output0 node)) "root"
                       (td_name (out_type (node_output0 node)) +:+ "_input")]
                | None => []
                end
           else []))
  /\
  (forall sh,
     fst (OSL.generate name element context w) = Returns (Some sh) ->
     List.filter is_connect (stage_code (shader_stage sh))
     = flat_map (fun node =>
         flat_map (fun input =>
           match in_value input, in_isDefault input, in_connection input with
           | Some _, false, Some {| out_node := OwnerNode up; out_name := outName |} =>
               ["connect " +:+ up +:+ "." +:+ outName +:+ " " +:+ node_name node
                +:+ "." +:+ in_name input +:+ " ;"]
           | _, _, _ => []
           end) (node_inputs node)) nodes).
Proof.
  intros nodes. split; intros sh Hgen.
  - destruct (nodes_generate_returns _ _ _ _ _ Hgen) as (_ & -> & _). fold nodes.
    rewrite !List.filter_app, nodes_connects_of_declarations.
    rewrite (filter_all _ _ (nodes_connects_kind nodes)). cbn [app].
    f_equal.
    + unfold OSLNodes.nodeConnectLines. apply flat_map_ext. intros node.
      apply flat_map_ext. intros input. unfold OSLNodes.connectLines, OSLNodes.internalConnection.
      destruct (in_isDefault input); [done|].
      destruct (in_connection input) as [[[|up] outName outType]|]; done.
    + destruct (oslNodesConnectCiWrapper context); [|done].
      apply nodes_connects_of_sink.
  - destruct (osl_generate_returns _ _ _ _ _ Hgen) as (_ & ->). fold nodes.
    rewrite List.filter_app, osl_connects_of_declarations.
    rewrite (filter_all _ _ (osl_connects_kind nodes)). cbn [app].
    unfold OSL.nodeConnectLines. apply flat_map_ext. intros node.
    apply flat_map_ext. intros input. unfold OSL.connectLines.
    destruct (in_value input); [|done]. destruct (in_isDefault input); [done|].
    destruct (in_connection input) as [[[|up] outName outType]|]; done.
Qed.

(** The two-node network with target "genosl": one connect statement. *)
Lemma X2_witness :
  match fst (@OSL.generate Samples.sampleSyntax
               (Samples.fixedGraph (Samples.graphOf [Samples.nodeA; Samples.nodeB]))
               "net" Samples.element (Samples.context false) Samples.world) with
  | Returns (Some sh) =>
      List.filter is_connect (stage_code (shader_stage sh)) = ["connect A.out B.in ;"]
  | _ => False
  end.
Proof.
  destruct (fst (@OSL.generate Samples.sampleSyntax
               (Samples.fixedGraph (Samples.graphOf [Samples.nodeA; Samples.nodeB]))
               "net" Samples.element (Samples.context false) Samples.world))
    as [[sh|]|f] eqn:Hgen; [|vm_compute in Hgen; discriminate Hgen..].
  rewrite (proj2 (@X2_one_connect_per_connected_input Samples.sampleSyntax
                    (Samples.fixedGraph (Samples.graphOf [Samples.nodeA; Samples.nodeB]))
                    "net" Samples.element (Samples.context false) Samples.world)
             sh Hgen).
  reflexivity.
Defined.

(** X3: [generate] changes nothing of the shader [createShader] built but
    its text: name, graph and the uniform, input and output blocks are kept.
    With target "genoslnodes" the one attribute set is [osoPath]; with target
    "genosl" no attribute is set. *)
Theorem X3_generate_keeps_the_published_interface
    {syntax : Syntax} {layer : GraphLayer}
    (name : string) (element : Element) (context : GenContext) (w : World) :
  (forall sh,
     fst (OSLNodes.generate name element context w) = Returns (Some sh) ->
     let built := OSLNodes.createShader name element context in
     shader_name sh = name
     /\ shader_graph sh = ShaderGraph_create name element context
     /\ stage_blocks (shader_stage sh) = stage_blocks (shader_stage built)
     /\ is_Some (shader_attributes sh !! "osoPath")
     /\ forall key, key <> "osoPath" -> shader_attributes sh !! key = None)
  /\
  (forall sh,
     fst (OSL.generate name element context w) = Returns (Some sh) ->
     let built := OSL.createShader name element context in
     shader_name sh = name
     /\ shader_graph sh = ShaderGraph_create name element context
     /\ stage_blocks (shader_stage sh) = stage_blocks (shader_stage built)
     /\ shader_attributes sh = ∅).
Proof.
  split; intros sh Hgen built.
  - destruct (nodes_generate_shape _ _ _ _ _ Hgen) as (lines & paths & ->).
    repeat split; try reflexivity.
    + cbn [setAttribute shader_attributes]. rewrite lookup_insert_eq. eauto.
    + intros key Hkey. cbn [setAttribute shader_attributes].
      rewrite lookup_insert_ne by done. apply lookup_empty.
  - destruct (osl_generate_shape _ _ _ _ _ Hgen) as (lines & ->).
    repeat split; reflexivity.
Qed.

(** Node A alone, target "genoslnodes": the used socket is still the one
    published uniform after generation. *)
Lemma X3_witness :
  match fst (@OSLNodes.generate Samples.sampleSyntax
               (Samples.fixedGraph (Samples.graphOf [Samples.nodeA]))
               "net" Samples.element (Samples.context false) Samples.world) with
  | Returns (Some sh) =>
      blocks_uniforms (stage_blocks (shader_stage sh)) !! "u"
      = Some [PortOfInputSocket Samples.amountSocket]
  | _ => False
  end.
Proof.
  destruct (fst (@OSLNodes.generate Samples.sampleSyntax
               (Samples.fixedGraph (Samples.graphOf [Samples.nodeA]))
               "net" Samples.element (Samples.context false) Samples.world))
    as [[sh|]|f] eqn:Hgen; [|vm_compute in Hgen; discriminate Hgen..].
  destruct (proj1 (@X3_generate_keeps_the_published_interface Samples.sampleSyntax
                     (Samples.fixedGraph (Samples.graphOf [Samples.nodeA]))
                     "net" Samples.element (Samples.context false) Samples.world)
              sh Hgen) as (_ & _ & -> & _).
  vm_compute. reflexivity.
Defined.

(** X4: with target "genoslnodes", when the nodes before some node resolve
    to implementations and the document has no definition of that node's
    definition name, or the definition has no element at all for the target,
    [generate] reads through the null pointer the lookup gave: it does not
    reach the test of [impl] and returns nothing. *)
Theorem X4_missing_lookup_is_read_through
    {syntax : Syntax} {layer : GraphLayer}
    (name : string) (element : Element) (context : GenContext) (w : World)
    (before : list ShaderNode) (node : ShaderNode) (after : list ShaderNode) :
  graph_nodes (ShaderGraph_create name element context) = before ++ node :: after ->
  Forall (fun n => is_Some (OSLNodes.resolveImplementation (elem_document element) n))
         before ->
  (getNodeDef (elem_document element) (node_nodeDefName node) = None ->
   fst (OSLNodes.generate name element context w) = Undefined NullNodeDef)
  /\ (forall nodeDef,
        getNodeDef (elem_document element) (node_nodeDefName node) = Some nodeDef ->
        getImplementation nodeDef "genoslnodes" = None ->
        fst (OSLNodes.generate name element context w) = Undefined NullInterfaceElement).
Proof.
  intros Hnodes Hbefore.
  assert (Hwalk : forall fault,
            (forall st, OSLNodes.visitNode (elem_document element) (floatFormat w) st node
                        = Undefined fault) ->
            fst (OSLNodes.generate name element context w) = Undefined fault).
  { intros fault Hvisit. unfold OSLNodes.generate, OSLNodes.generateFrom. cbn [fst].
    change (graph_nodes (shader_graph (OSLNodes.createShader name element context)))
      with (graph_nodes (ShaderGraph_create name element context)).
    rewrite Hnodes.
    destruct (nodes_walk_past (elem_document element) (floatFormat w) before
                (node :: after)
                {| OSLNodes.ws_stage :=
                     shader_stage (OSLNodes.createShader name element context);
                   OSLNodes.ws_connections := [];
                   OSLNodes.ws_osoPaths := [];
                   OSLNodes.ws_lastNodeName := "";
                   OSLNodes.ws_lastOutput := None |} Hbefore) as [st1 ->].
    cbn [OSLNodes.walkNodes]. by rewrite Hvisit. }
  split.
  - intros Hnone. apply Hwalk. intros st. by apply nodes_visitNode_undefined.
  - intros nodeDef Hnd Hel. apply Hwalk. intros st.
    by eapply nodes_visitNode_missing.
Qed.

(** Node A, then a node whose definition name the library does not hold. *)
Lemma X4_witness :
  fst (@OSLNodes.generate Samples.sampleSyntax
         (Samples.fixedGraph (Samples.graphOf [Samples.nodeA; sampleUnknownNode]))
         "net" Samples.element (Samples.context false) Samples.world)
  = Undefined NullNodeDef.
Proof.
  refine (proj1 (@X4_missing_lookup_is_read_through Samples.sampleSyntax
            (Samples.fixedGraph (Samples.graphOf [Samples.nodeA; sampleUnknownNode]))
            "net" Samples.element (Samples.context false)
            Samples.world [Samples.nodeA] sampleUnknownNode [] eq_refl _) _).
  - constructor; [|constructor]. vm_compute. eauto.
  - vm_compute. reflexivity.
Defined.

Section LooseInputs.
Context `{Syntax}.

Lemma readsNullConnection_true input :
  OSL.readsNullConnection input = true
  <-> is_Some (in_value input) /\ in_isDefault input = false
      /\ in_connection input = None.
Proof.
  unfold OSL.readsNullConnection.
  rewrite !andb_true_iff, !negb_true_iff, bool_decide_eq_true, bool_decide_eq_false.
  split.
  - intros [[Hv Hd] Hc]. split; [done|]. split; [done|].
    destruct (in_connection input); [destruct Hc; eauto|done].
  - intros (Hv & Hd & Hc). rewrite Hc. split; [done|]. by intros [? ?].
Qed.

Lemma wellConnected_or_loose nodes :
  Forall OSL.wellConnected nodes
  \/ exists node input,
       node ∈ nodes /\ input ∈ node_inputs node
       /\ OSL.readsNullConnection input = true.
Proof.
  induction nodes as [|node nodes [IH|(n & i & Hn & Hi & Hr)]].
  - left. constructor.
  - assert (Hnode : OSL.wellConnected node
                    \/ exists input, input ∈ node_inputs node
                                     /\ OSL.readsNullConnection input = true).
    { unfold OSL.wellConnected.
      induction (node_inputs node) as [|input inputs [IHi|(i & Hi & Hr)]].
      - left. constructor.
      - destruct (OSL.readsNullConnection input) eqn:Hr.
        + right. exists input. split; [left|done].
        + left. by constructor.
      - right. exists i. split; [by right|done]. }
    destruct Hnode as [Hnode|(i & Hi & Hr)].
    + left. by constructor.
    + right. exists node, i. split; [left|done].
  - right. exists n, i. split; [by right|done].
Qed.

End LooseInputs.

(** X5: with target "genosl", [generate] returns a shader or reads through a
    null connection, nothing else; it reads through a null connection exactly
    when some input of some node has a value, is not marked default and has no
    connection at all. *)
Theorem X5_unconnected_literal_input_is_read_through
    {syntax : Syntax} {layer : GraphLayer}
    (name : string) (element : Element) (context : GenContext) (w : World) :
  let nodes := graph_nodes (ShaderGraph_create name element context) in
  ((exists sh, fst (OSL.generate name element context w) = Returns (Some sh))
   \/ fst (OSL.generate name element context w) = Undefined NullConnection)
  /\ (fst (OSL.generate name element context w) = Undefined NullConnection
      <-> exists node input,
            node ∈ nodes /\ input ∈ node_inputs node
            /\ is_Some (in_value input)
            /\ in_isDefault input = false
            /\ in_connection input = None).
Proof.
  intros nodes.
  assert (Hcases : (exists sh, fst (OSL.generate name element context w)
                               = Returns (Some sh))
                   \/ fst (OSL.generate name element context w)
                      = Undefined NullConnection).
  { unfold OSL.generate, OSL.generateFrom.
    cbn [ScopedFloatFormatting_enter fst floatFormat].
    destruct (OSL.walkNodes _ _ _) as [[stage conns]|f] eqn:Hw; cbn [bindO].
    - left. eauto.
    - right. by rewrite (osl_walk_fault _ _ _ _ Hw). }
  split; [exact Hcases|].
  pose proof (osl_generate_total name element context w) as Htotal.
  fold nodes in Htotal. split.
  - intros Hun. destruct (wellConnected_or_loose nodes) as [Hall|(n & i & Hn & Hi & Hr)].
    + apply Htotal in Hall as [sh Hsh]. rewrite Hsh in Hun. discriminate Hun.
    + exists n, i. apply readsNullConnection_true in Hr. tauto.
  - intros (n & i & Hn & Hi & Hloose).
    destruct Hcases as [Hsome|Hun]; [|exact Hun].
    apply Htotal in Hsome. rewrite Forall_forall in Hsome.
    specialize (Hsome n Hn). unfold OSL.wellConnected in Hsome.
    rewrite Forall_forall in Hsome. specialize (Hsome i Hi).
    apply readsNullConnection_true in Hloose. congruence.
Qed.

(** A literal input left without any connection. *)
Lemma X5_witness :
  fst (@OSL.generate Samples.sampleSyntax
         (Samples.fixedGraph (Samples.graphOf [Samples.nodeA; sampleLooseNode]))
         "net" Samples.element (Samples.context false) Samples.world)
  = Undefined NullConnection.
Proof.
  apply (proj2 (@X5_unconnected_literal_input_is_read_through Samples.sampleSyntax
                  (Samples.fixedGraph (Samples.graphOf [Samples.nodeA; sampleLooseNode]))
                  "net" Samples.element (Samples.context false) Samples.world)).
  exists sampleLooseNode. eexists. split; [right; left|].
  split; [left|]. split; [eauto|]. split; reflexivity.
Defined.

(** * Stripping the "ND_" prefix *)

Lemma substring_0_0 s : String.substring 0 0 s = "".
Proof. by destruct s. Qed.

Lemma substring_all s : String.substring 0 (String.length s) s = s.
Proof.
  induction s as [|a s IH]; [done|].
  change (String a (String.substring 0 (String.length s) s) = String a s).
  by rewrite IH.
Qed.

Lemma substring_length n m s :
  n + m <= String.length s -> String.length (String.substring n m s) = m.
Proof.
  revert n m. induction s as [|a s IH]; intros n m Hlen.
  - cbn [String.length] in Hlen. assert (n = 0) as -> by lia.
    assert (m = 0) as -> by lia. done.
  - cbn [String.length] in Hlen. destruct n as [|n].
    + destruct m as [|m]; [done|].
      change (S (String.length (String.substring 0 m s)) = S m).
      rewrite IH by lia. done.
    + change (String.length (String.substring n m s) = m). apply IH. lia.
Qed.

Lemma substring_split n s :
  n <= String.length s ->
  s = String.substring 0 n s +:+ String.substring n (String.length s - n) s.
Proof.
  revert n. induction s as [|a s IH]; intros n Hlen.
  - cbn [String.length] in Hlen. by assert (n = 0) as -> by lia.
  - cbn [String.length] in Hlen. destruct n as [|n].
    + cbn [String.length Nat.sub].
      change (String a s
              = "" +:+ String a (String.substring 0 (String.length s) s)).
      by rewrite substring_all.
    + change (String a s
              = String a (String.substring 0 n s
                          +:+ String.substring n (String.length s - n) s)).
      by rewrite <- IH by lia.
Qed.

Lemma stripND_stripped s :
  stripND s <> s ->
  3 < String.length s
  /\ String.substring 0 3 s = "ND_"
  /\ stripND s = String.substring 3 (String.length s - 3) s.
Proof.
  unfold stripND. destruct (Nat.ltb_spec 3 (String.length s)) as [Hlen|]; [|done].
  destruct (String.eqb_spec (String.substring 0 3 s) "ND_") as [Hpre|]; [|done].
  done.
Qed.

Lemma stripND_prefixed s : s <> "" -> stripND ("ND_" +:+ s) = s.
Proof.
  intros Hs. unfold stripND.
  assert (Hpre : String.substring 0 3 ("ND_" +:+ s) = "ND_").
  { change (String.substring 0 3 ("ND_" +:+ s))
      with ("ND_" +:+ String.substring 0 0 s).
    by rewrite substring_0_0. }
  assert (Hrest : String.substring 3 (String.length ("ND_" +:+ s) - 3) ("ND_" +:+ s)
                  = s).
  { change (String.substring 3 (String.length ("ND_" +:+ s) - 3) ("ND_" +:+ s))
      with (String.substring 0 (String.length s - 0) s).
    rewrite Nat.sub_0_r. apply substring_all. }
  rewrite Hpre, Hrest. destruct s as [|a s]; [done|]. reflexivity.
Qed.

(** X6: the "ND_" prefix is removed from a name exactly when at least one
    character follows it, and then the rest is returned as it is; any other
    name, the bare "ND_" among them, is returned unchanged, so a name that is
    not empty never becomes empty. *)
Theorem X6_stripND_keeps_the_rest (s : string) :
  (s <> "" -> stripND ("ND_" +:+ s) = s)
  /\ (stripND s = s \/ (s = "ND_" +:+ stripND s /\ stripND s <> ""))
  /\ (s <> "" -> stripND s <> "")
  /\ stripND "ND_" = "ND_".
Proof.
  assert (Hcases : stripND s = s \/ (s = "ND_" +:+ stripND s /\ stripND s <> "")).
  { destruct (decide (stripND s = s)) as [|Hne]; [by left|right].
    destruct (stripND_stripped s Hne) as (Hlen & Hpre & ->).
    split.
    - rewrite <- Hpre. apply substring_split. lia.
    - intros Hempty.
      pose proof (substring_length 3 (String.length s - 3) s ltac:(lia)) as Hl.
      rewrite Hempty in Hl. cbn [String.length] in Hl. lia. }
  split; [|split; [exact Hcases|split; [|reflexivity]]].
  - apply stripND_prefixed.
  - intros Hs. destruct Hcases as [->|[_ Hne]]; done.
Qed.

(** The definition name of the standard image node. *)
Lemma X6_witness : stripND "ND_image_color3" = "image_color3".
Proof.
  exact (proj1 (X6_stripND_keeps_the_rest "image_color3") ltac:(discriminate)).
Defined.

(** * The text under a change of node order *)

(** X7: listing the same nodes in another order gives the same statements in
    another order: with the wrapper option clear (target "genoslnodes") and
    always with target "genosl", a shader is returned for the reordered graph
    whenever one is returned for the graph, and the two texts are
    permutations of each other. *)
Theorem X7_reordered_nodes_give_the_same_statements
    {syntax : Syntax} (layer layer' : GraphLayer)
    (name : string) (element : Element) (context : GenContext) (w : World) :
  graph_nodes (@ShaderGraph_create layer' name element context)
  ≡ₚ graph_nodes (@ShaderGraph_create layer name element context) ->
  (oslNodesConnectCiWrapper context = false ->
   forall sh,
     fst (@OSLNodes.generate syntax layer name element context w) = Returns (Some sh) ->
     exists sh',
       fst (@OSLNodes.generate syntax layer' name element context w) = Returns (Some sh')
       /\ stage_code (shader_stage sh') ≡ₚ stage_code (shader_stage sh))
  /\ (forall sh,
        fst (@OSL.generate syntax layer name element context w) = Returns (Some sh) ->
        exists sh',
          fst (@OSL.generate syntax layer' name element context w) = Returns (Some sh')
          /\ stage_code (shader_stage sh') ≡ₚ stage_code (shader_stage sh)).
Proof.
  intros Hperm. split.
  - intros Hwrap sh Hgen.
    destruct (@nodes_generate_returns syntax layer _ _ _ _ _ Hgen) as (Hall & Hcode & _).
    assert (Hsome : exists sh', fst (@OSLNodes.generate syntax layer' name element context w)
                                = Returns (Some sh')).
    { apply (@nodes_generate_total syntax layer'). split; [by rewrite Hperm|].
      intros Hw. congruence. }
    destruct Hsome as [sh' Hgen']. exists sh'. split; [done|].
    destruct (@nodes_generate_returns syntax layer' _ _ _ _ _ Hgen') as (_ & Hcode' & _).
    rewrite Hcode, Hcode', Hwrap, !app_nil_r. by rewrite Hperm.
  - intros sh Hgen.
    destruct (@osl_generate_returns syntax layer _ _ _ _ _ Hgen) as (Hall & Hcode).
    assert (Hsome : exists sh', fst (@OSL.generate syntax layer' name element context w)
                                = Returns (Some sh')).
    { apply (@osl_generate_total syntax layer'). by rewrite Hperm. }
    destruct Hsome as [sh' Hgen']. exists sh'. split; [done|].
    destruct (@osl_generate_returns syntax layer' _ _ _ _ _ Hgen') as (_ & Hcode').
    rewrite Hcode, Hcode'. by rewrite Hperm.
Qed.

(** The two-node network in both orders, target "genosl". *)
Lemma X7_witness :
  match fst (@OSL.generate Samples.sampleSyntax
               (Samples.fixedGraph (Samples.graphOf [Samples.nodeB; Samples.nodeA]))
               "net" Samples.element (Samples.context false) Samples.world) with
  | Returns (Some sh') =>
      stage_code (shader_stage sh')
      ≡ₚ [ "param float in.amount 0.500000 ;"; "shader A A ;"; "shader B B ;";
           "connect A.out B.in ;" ]
  | _ => False
  end.
Proof.
  destruct (proj2 (@X7_reordered_nodes_give_the_same_statements Samples.sampleSyntax
                     (Samples.fixedGraph (Samples.graphOf [Samples.nodeA; Samples.nodeB]))
                     (Samples.fixedGraph (Samples.graphOf [Samples.nodeB; Samples.nodeA]))
                     "net" Samples.element (Samples.context false) Samples.world
                     (perm_swap _ _ _))
              _ ltac:(vm_compute; reflexivity)) as (sh' & -> & Hcode).
  exact Hcode.
Defined.

(** * Further properties of the batch driver *)

Section FileFacts.
Import LibsToOso.
Context `{Toolchain}.
Variables (outputPath argPrefix : string).

Lemma guarded_files nodeName st :
  files (guarded outputPath nodeName st)
  = match generateSource (librariesDoc st) nodeName with
    | inl _ => files st
    | inr source =>
        if opens (oslFilePath outputPath nodeName)
        then <[oslFilePath outputPath nodeName := source]> (files st)
        else files st
    end.
Proof.
  unfold guarded. destruct (generateSource (librariesDoc st) nodeName) as [exc|source];
    [done|].
  by destruct (compileOSL _ source).
Qed.

(** The one file a pass through the loop body may write. *)
Lemma iteration_files st nodeDef st' :
  iteration outputPath argPrefix st nodeDef = Some st' ->
  files st'
  = match storedSource outputPath argPrefix (librariesDoc st) nodeDef with
    | Some source => <[sourcePath outputPath argPrefix nodeDef := source]> (files st)
    | None => files st
    end.
Proof.
  unfold iteration, storedSource, generatedSource, sourcePath.
  destruct (getImplementation nodeDef getTarget) as [impl|].
  2:{ intros [= <-]. by destruct (opens _). }
  destruct (addNodeInstance _ _ _) as [doc'|]; [|done].
  intros [= <-]. cbn [withDoc files]. rewrite guarded_files.
  cbn [withDoc librariesDoc files].
  destruct (generateSource doc' (publicName argPrefix nodeDef));
    by destruct (opens _).
Qed.

Lemma loop_files nodeDefs st st' :
  loop outputPath argPrefix nodeDefs st = Some st' ->
  files st'
  = fold_left
      (fun written nodeDef =>
         match storedSource outputPath argPrefix (librariesDoc st) nodeDef with
         | Some source => <[sourcePath outputPath argPrefix nodeDef := source]> written
         | None => written
         end) nodeDefs (files st).
Proof.
  revert st. induction nodeDefs as [|nd nodeDefs IH]; intros st Hloop;
    cbn [loop fold_left] in *.
  - by injection Hloop as <-.
  - destruct (iteration outputPath argPrefix st nd) as [st1|] eqn:Hit; [|done].
    rewrite (IH _ Hloop), (iteration_doc _ _ _ _ _ Hit), (iteration_files _ _ _ Hit).
    reflexivity.
Qed.

(** Reading the fold of the writes at one path. *)
Lemma written_lookup doc nodeDefs (written : gmap string string) p :
  fold_left
    (fun written nodeDef =>
       match storedSource outputPath argPrefix doc nodeDef with
       | Some source => <[sourcePath outputPath argPrefix nodeDef := source]> written
       | None => written
       end) nodeDefs written !! p
  = match list_find (fun nd => is_Some (storedSource outputPath argPrefix doc nd)
                               /\ sourcePath outputPath argPrefix nd = p)
                    (reverse nodeDefs) with
    | Some (_, nd) => storedSource outputPath argPrefix doc nd
    | None => written !! p
    end.
Proof.
  revert written. induction nodeDefs as [|nd nodeDefs IH]; intros written;
    cbn [fold_left]; [done|].
  rewrite IH, reverse_cons. clear IH.
  destruct (list_find _ (reverse nodeDefs)) as [[i nd']|] eqn:Hfind.
  - erewrite list_find_app_l by done. done.
  - rewrite list_find_app_r by done. cbn [list_find].
    destruct (storedSource outputPath argPrefix doc nd) as [source|] eqn:Hsrc.
    + destruct (decide (sourcePath outputPath argPrefix nd = p)) as [<-|Hne].
      * rewrite decide_True by eauto. cbn. by rewrite lookup_insert_eq.
      * rewrite decide_False by (by intros [_ ?]). cbn. by rewrite lookup_insert_ne.
    + rewrite decide_False by (by intros [[? ?] _]). done.
Qed.

Lemma storedSource_Some doc nodeDef text :
  storedSource outputPath argPrefix doc nodeDef = Some text
  <-> generatedSource argPrefix doc nodeDef = Some text
      /\ opens (sourcePath outputPath argPrefix nodeDef) = true.
Proof.
  unfold storedSource. destruct (opens _); split; try done; by intros [? ?].
Qed.

End FileFacts.

(** X8: the source files a finished run leaves.  The file of a definition
    holds the text the generator gave for it when the stream at its path
    opened and no later definition wrote to the same path, whether or not the
    compiler then failed on it.  The file of a definition is as it was before
    the run (an older file stays, a missing one stays missing) when nothing
    was stored at its path: the definition was skipped, its generation threw
    or its stream did not open, and no other definition stored a text
    there.  Every definition with a text and an open stream has a file. *)
Theorem X8_source_files_of_a_run
    {toolchain : LibsToOso.Toolchain} (outputPath argPrefix : string)
    (doc : Document) (files : gmap string string) (code : Z) (st : LibsToOso.State) :
  LibsToOso.batch outputPath argPrefix doc files = Some (code, st) ->
  let source := generatedSource argPrefix doc in
  let stored := storedSource outputPath argPrefix doc in
  let path := sourcePath outputPath argPrefix in
  (forall before nd after text,
     getNodeDefs doc = before ++ nd :: after ->
     source nd = Some text ->
     LibsToOso.opens (path nd) = true ->
     Forall (fun nd' => is_Some (source nd') -> path nd' <> path nd) after ->
     LibsToOso.files st !! path nd = Some text)
  /\ (forall nd,
        nd ∈ getNodeDefs doc ->
        (forall nd', nd' ∈ getNodeDefs doc -> path nd' = path nd -> stored nd' = None) ->
        LibsToOso.files st !! path nd = files !! path nd)
  /\ (forall nd,
        nd ∈ getNodeDefs doc -> is_Some (stored nd) ->
        is_Some (LibsToOso.files st !! path nd)).
Proof.
  intros Hbatch source stored path. unfold LibsToOso.batch in Hbatch.
  destruct (LibsToOso.loop outputPath argPrefix (getNodeDefs doc)
              (LibsToOso.initialState doc files)) as [st'|] eqn:Hloop; [|done].
  injection Hbatch as _ <-.
  pose proof (loop_files _ _ _ _ _ Hloop) as Hfiles.
  cbn [LibsToOso.initialState LibsToOso.librariesDoc LibsToOso.files] in Hfiles.
  split; [|split].
  - intros before nd after text Hdefs Hsrc Hopen Hlater.
    assert (Hstored : stored nd = Some text) by (by apply storedSource_Some).
    rewrite Hfiles, written_lookup, Hdefs, reverse_app, reverse_cons, <- app_assoc.
    rewrite list_find_app_r.
    + cbn [app list_find]. fold stored path. rewrite decide_True; [done|].
      by rewrite Hstored.
    + apply list_find_None, Forall_reverse.
      eapply Forall_impl; [exact Hlater|]. intros nd' Hnd' [[t Hs] Hp].
      apply storedSource_Some in Hs as [Hs _]. apply Hnd'; [by exists t|done].
  - intros nd Hin Hnone. rewrite Hfiles, written_lookup.
    destruct (list_find _ _) as [[i nd']|] eqn:Hfind; [|done].
    apply list_find_Some in Hfind as (Hin' & [[t Hs] Hp] & _).
    apply list_elem_of_lookup_2 in Hin'. rewrite elem_of_reverse in Hin'.
    fold stored in Hs. rewrite (Hnone nd' Hin' Hp) in Hs. discriminate Hs.
  - intros nd Hin Hsrc. rewrite Hfiles, written_lookup.
    destruct (list_find _ _) as [[i nd']|] eqn:Hfind.
    + by apply list_find_Some in Hfind as (_ & [Hs _] & _).
    + apply list_find_None in Hfind. rewrite Forall_forall in Hfind.
      destruct (Hfind nd); [by apply elem_of_reverse|done].
Qed.

(** The sample library where the stream at out/D.osl does not open: B's text
    is in its file although B failed to compile, and D's file is the one
    that was there before the run. *)
Lemma X8_witness :
  match @LibsToOso.batch Samples.closedToolchain "out" "" Samples.library
          {[ "out/D.osl" := "shader old" ]} with
  | Some (code, st) =>
      code = 1%Z
      /\ LibsToOso.files st !! "out/B.osl" = Some "shader B"
      /\ LibsToOso.files st !! "out/D.osl" = Some "shader old"
  | None => False
  end.
Proof.
  destruct (@LibsToOso.batch Samples.closedToolchain "out" "" Samples.library
              {[ "out/D.osl" := "shader old" ]})
    as [[code st]|] eqn:Hbatch; [|vm_compute in Hbatch; discriminate Hbatch].
  destruct (@X8_source_files_of_a_run Samples.closedToolchain "out" ""
              Samples.library _ code st Hbatch) as (Hlast & Hkept & _).
  split; [|split].
  - vm_compute in Hbatch. by injection Hbatch as <- _.
  - apply (Hlast
             [ {| nd_name := "ND_A";
                  nd_implementations :=
                    {[ "genoslnodes" :=
                         IsImplementation
                           {| impl_function := "implA";
                              impl_file := "stdlib/genoslnodes/a.osl" |} ]} |} ]
             {| nd_name := "ND_B";
                nd_implementations :=
                  {[ "genoslnodes" :=
                       IsImplementation
                         {| impl_function := "implB";
                            impl_file := "stdlib/genoslnodes/b.osl" |} ]} |}
             [ {| nd_name := "ND_C"; nd_implementations := ∅ |};
               {| nd_name := "ND_D";
                  nd_implementations := {[ "genoslnodes" := IsNodeGraph "NG_D" ]} |} ]).
    + reflexivity.
    + vm_compute. reflexivity.
    + reflexivity.
    + constructor; [|constructor; [|constructor]].
      * intros [t Ht]. vm_compute in Ht. discriminate Ht.
      * intros _ Hp. vm_compute in Hp. discriminate Hp.
  - transitivity (({[ "out/D.osl" := "shader old" ]} : gmap string string) !! "out/D.osl");
      [|apply lookup_singleton_eq].
    apply (Hkept {| nd_name := "ND_D";
                    nd_implementations := {[ "genoslnodes" := IsNodeGraph "NG_D" ]} |}).
    + right. right. right. left.
    + intros nd Hin Hp.
      repeat (apply elem_of_cons in Hin as [->|Hin]);
        [vm_compute in Hp; discriminate Hp
        |vm_compute in Hp; discriminate Hp
        |vm_compute in Hp; discriminate Hp
        |vm_compute; reflexivity
        |by apply elem_of_nil in Hin].
Defined.

Section LogFacts.
Import LibsToOso.
Context `{Toolchain}.
Variables (outputPath argPrefix : string).

Lemma itemLog_nil doc nodeDef :
  itemLog outputPath argPrefix doc nodeDef = []
  <-> itemResult outputPath argPrefix doc nodeDef = Clean
      \/ itemResult outputPath argPrefix doc nodeDef = NameTaken.
Proof.
  unfold itemLog.
  destruct (itemResult outputPath argPrefix doc nodeDef) as [| | |[what errorLog|what]];
    cbn [diagnostics]; split; try done; try tauto; intros [?|?]; done.
Qed.

Lemma flat_map_nil {A B} (f : A -> list B) (l : list A) :
  flat_map f l = [] <-> Forall (fun x => f x = []) l.
Proof.
  induction l as [|x l IH]; cbn [flat_map]; [by split; [constructor|]|].
  rewrite Forall_cons, <- IH. split.
  - by intros [? ?]%app_eq_nil.
  - by intros [-> ->].
Qed.

End LogFacts.

(** X9: the log of a finished run is empty exactly when every definition of
    the library has an implementation for the target and was generated and
    compiled with nothing thrown: a skip leaves a line as a failure does. *)
Theorem X9_empty_log_means_all_clean
    {toolchain : LibsToOso.Toolchain} (outputPath argPrefix : string)
    (doc : Document) (files : gmap string string) (code : Z) (st : LibsToOso.State) :
  LibsToOso.batch outputPath argPrefix doc files = Some (code, st) ->
  (LibsToOso.logFile st = []
   <-> Forall (fun nd => LibsToOso.itemResult outputPath argPrefix doc nd = LibsToOso.Clean)
              (getNodeDefs doc))
  /\ (LibsToOso.logFile st = [] -> code = 0%Z).
Proof.
  intros Hbatch. unfold LibsToOso.batch in Hbatch.
  pose proof (loop_effect outputPath argPrefix (getNodeDefs doc)
                (LibsToOso.initialState doc files)) as Heff.
  cbn zeta in Heff.
  cbn [LibsToOso.initialState LibsToOso.librariesDoc LibsToOso.logFile
       LibsToOso.hasFailed orb app] in Heff.
  destruct (LibsToOso.loop outputPath argPrefix (getNodeDefs doc)
              (LibsToOso.initialState doc files)) as [st'|]; [|done].
  destruct Heff as (Hnames & _ & Hlog & Hfail). injection Hbatch as <- <-.
  assert (Hiff : LibsToOso.logFile st' = []
                 <-> Forall (fun nd => LibsToOso.itemResult outputPath argPrefix doc nd
                                       = LibsToOso.Clean) (getNodeDefs doc)).
  { rewrite Hlog, flat_map_nil, !Forall_forall. rewrite Forall_forall in Hnames.
    split; intros Hall nd Hin.
    - destruct (proj1 (itemLog_nil _ _ _ _) (Hall nd Hin)) as [|Htaken]; [done|].
      by destruct (Hnames nd Hin).
    - apply itemLog_nil. left. by apply Hall. }
  split; [exact Hiff|]. intros Hempty.
  destruct (LibsToOso.hasFailed st') eqn:Hf; [|done].
  symmetry in Hfail. apply existsb_itemFailed, Exists_exists in Hfail.
  destruct Hfail as (nd & Hin & exc & Hexc).
  apply Hiff in Hempty. rewrite Forall_forall in Hempty.
  rewrite (Hempty nd Hin) in Hexc. discriminate Hexc.
Qed.

(** A library of the one definition ND_A: nothing is logged. *)
Lemma X9_witness :
  match @LibsToOso.batch Samples.sampleToolchain "out" ""
          [Samples.implementedBy "ND_A" "implA" "stdlib/genoslnodes/a.osl"] ∅ with
  | Some (code, st) => LibsToOso.logFile st = [] /\ code = 0%Z
  | None => False
  end.
Proof.
  destruct (@LibsToOso.batch Samples.sampleToolchain "out" ""
              [Samples.implementedBy "ND_A" "implA" "stdlib/genoslnodes/a.osl"] ∅)
    as [[code st]|] eqn:Hbatch; [|vm_compute in Hbatch; discriminate Hbatch].
  destruct (@X9_empty_log_means_all_clean Samples.sampleToolchain "out" ""
              _ ∅ code st Hbatch) as (Hiff & Hcode).
  assert (Hlog : LibsToOso.logFile st = []).
  { apply Hiff. constructor; [|constructor]. vm_compute. reflexivity. }
  split; [exact Hlog|exact (Hcode Hlog)].
Defined.

(** X10: whatever state the loop starts in, it never takes anything back: a
    failure flag that is set stays set, the log it ends with is the log it
    started with followed by more lines, every file that was there is still
    there, and the document is the one it started with. *)
Theorem X10_loop_only_adds
    {toolchain : LibsToOso.Toolchain} (outputPath argPrefix : string)
    (nodeDefs : list NodeDef) (st st' : LibsToOso.State) :
  LibsToOso.loop outputPath argPrefix nodeDefs st = Some st' ->
  (LibsToOso.hasFailed st = true -> LibsToOso.hasFailed st' = true)
  /\ (exists more, LibsToOso.logFile st' = LibsToOso.logFile st ++ more)
  /\ (forall p, is_Some (LibsToOso.files st !! p) -> is_Some (LibsToOso.files st' !! p))
  /\ LibsToOso.librariesDoc st' = LibsToOso.librariesDoc st.
Proof.
  intros Hloop.
  pose proof (loop_effect outputPath argPrefix nodeDefs st) as Heff. cbn zeta in Heff.
  rewrite Hloop in Heff. destruct Heff as (_ & Hdoc & Hlog & Hfail).
  split; [|split; [|split]].
  - intros Hset. by rewrite Hfail, Hset.
  - eauto.
  - intros p Hp. rewrite (loop_files _ _ _ _ _ Hloop), written_lookup.
    destruct (list_find _ _) as [[i nd]|] eqn:Hfind; [|done].
    by apply list_find_Some in Hfind as (_ & [Hs _] & _).
  - done.
Qed.

(** The sample library, started with the flag set and one line logged. *)
Lemma X10_witness :
  match @LibsToOso.loop Samples.sampleToolchain "out" ""
          (getNodeDefs Samples.library)
          {| LibsToOso.librariesDoc := Samples.library;
             LibsToOso.logFile := ["earlier line"];
             LibsToOso.files := ∅;
             LibsToOso.hasFailed := true |} with
  | Some st' => LibsToOso.hasFailed st' = true
  | None => False
  end.
Proof.
  destruct (@LibsToOso.loop Samples.sampleToolchain "out" ""
              (getNodeDefs Samples.library) _) as [st'|] eqn:Hloop;
    [|vm_compute in Hloop; discriminate Hloop].
  exact (proj1 (@X10_loop_only_adds Samples.sampleToolchain "out" "" _ _ _ Hloop)
           eq_refl).
Defined.

(** * The log file and the source files *)

Lemma string_length_app (s t : string) :
  String.length (s +:+ t) = String.length s + String.length t.
Proof.
  induction s as [|a s IH]; [done|].
  change (S (String.length (s +:+ t)) = S (String.length s + String.length t)).
  by rewrite IH.
Qed.

Lemma string_get_app_r (s t : string) (k : nat) :
  String.get (String.length s + k) (s +:+ t) = String.get k t.
Proof.
  induction s as [|a s IH]; [done|].
  change (String.get (String.length s + k) (s +:+ t) = String.get k t). exact IH.
Qed.

(** X11: no source file has the path of the log file: whatever the output
    folder and the public name, the path [<folder>/<name>.osl] differs from
    [<folder>/genoslnodes_libs_to_oso.txt]. *)
Theorem X11_no_source_file_is_the_log_file (outputPath nodeName : string) :
  LibsToOso.oslFilePath outputPath nodeName <> LibsToOsoMain.logFilePath outputPath.
Proof.
  unfold LibsToOso.oslFilePath, LibsToOsoMain.logFilePath. intros Heq.
  apply (inj (String.app outputPath)) in Heq.
  change ("/" +:+ nodeName +:+ ".osl") with (String "/" (nodeName +:+ ".osl")) in Heq.
  injection Heq as Heq.
  assert (Hlen : String.length nodeName = 23).
  { apply (f_equal String.length) in Heq. rewrite string_length_app in Heq.
    cbn [String.length] in Heq. lia. }
  apply (f_equal (String.get (String.length nodeName + 3))) in Heq.
  rewrite string_get_app_r in Heq. rewrite Hlen in Heq.
  vm_compute in Heq. discriminate Heq.
Qed.

(** * The command line *)

Section CommandLineFacts.
Import CommandLine.

Lemma recognise_flagName f : recognise (flagName f) = Some f.
Proof. by destruct f. Qed.

Lemma recognise_Some token f : recognise token = Some f -> token = flagName f.
Proof.
  unfold recognise.
  repeat match goal with
         | |- context [String.eqb token ?name] =>
             destruct (String.eqb_spec token name) as [->|_]; [by intros [= <-]|]
         end.
  done.
Qed.

(** One option with a value that is not empty: both tokens are used up. *)
Lemma parseTokens_pair f v rest args :
  f <> Help -> v <> "" ->
  parseTokens (flagName f :: v :: rest) args = parseTokens rest (store f v args).
Proof.
  intros Hf Hv. cbn [parseTokens]. rewrite recognise_flagName.
  apply String.eqb_neq in Hv. rewrite Hv. by destruct f.
Qed.

Lemma parseTokens_pairs pairs rest args :
  Forall properPair pairs ->
  parseTokens (pairTokens pairs ++ rest) args = parseTokens rest (storeAll pairs args).
Proof.
  intros Hall. revert args.
  induction Hall as [|[f v] pairs [Hf Hv] _ IH]; intros args; [done|].
  cbn [pairTokens flat_map app storeAll fold_left] in *.
  rewrite parseTokens_pair by done. apply IH.
Qed.

Lemma storeAll_app pairs1 pairs2 args :
  storeAll (pairs1 ++ pairs2) args = storeAll pairs2 (storeAll pairs1 args).
Proof. apply fold_left_app. Qed.

Lemma field_store_same f v args : f <> Help -> field f (store f v args) = v.
Proof. by destruct f. Qed.

Lemma field_store_other f g v args : f <> g -> field f (store g v args) = field f args.
Proof. by destruct f, g. Qed.

End CommandLineFacts.

(** X12: a command line made of options each followed by a value that is not
    empty is read pair by pair, and of two values given for one option the
    later one stands: after the pairs the field of the last pair's option is
    its value, and the fields of the other options are as the pairs before
    it left them.  Values are taken as they are, a value spelled like an
    option, [--help] included, is a value. *)
Theorem X12_options_with_values
    (pairs : list (CommandLine.Flag * string)) (args : CommandLine.Args) :
  Forall CommandLine.properPair pairs ->
  CommandLine.parseTokens (CommandLine.pairTokens pairs) args
  = Some (CommandLine.storeAll pairs args)
  /\ (forall f v,
        f <> CommandLine.Help ->
        CommandLine.field f (CommandLine.storeAll (pairs ++ [(f, v)]) args) = v)
  /\ (forall f g v,
        f <> g ->
        CommandLine.field f (CommandLine.storeAll (pairs ++ [(g, v)]) args)
        = CommandLine.field f (CommandLine.storeAll pairs args)).
Proof.
  intros Hall. split; [|split].
  - rewrite <- (app_nil_r (CommandLine.pairTokens pairs)).
    by rewrite parseTokens_pairs.
  - intros f v Hf. rewrite storeAll_app. by apply field_store_same.
  - intros f g v Hfg. rewrite storeAll_app. by apply field_store_other.
Qed.

(** The prefix given twice, and an output path spelled like an option. *)
Lemma X12_witness :
  CommandLine.parseTokens
    ["--prefix"; "a"; "--outputPath"; "--help"; "--prefix"; "b"] CommandLine.noArgs
  = Some {| CommandLine.argOutputPath := "--help";
            CommandLine.argOslCompilerPath := "";
            CommandLine.argOslIncludePath := "";
            CommandLine.argLibraries := "";
            CommandLine.argPrefix := "b" |}.
Proof.
  exact (proj1 (X12_options_with_values
                  [(CommandLine.Prefix, "a"); (CommandLine.OutputPath, "--help");
                   (CommandLine.Prefix, "b")] CommandLine.noArgs
                  ltac:(repeat constructor; discriminate))).
Defined.

(** X13: after options with their values, [--help] ends the reading with
    the return of 0 whatever follows it; and an option that stands last, or
    before an empty token, with no value after it, sets its field to the
    empty string, dropping a value given for it earlier. *)
Theorem X13_help_and_options_without_value
    (pairs : list (CommandLine.Flag * string)) (rest : list string)
    (args : CommandLine.Args) :
  Forall CommandLine.properPair pairs ->
  CommandLine.parseTokens (CommandLine.pairTokens pairs ++ "--help" :: rest) args = None
  /\ (forall f,
        f <> CommandLine.Help ->
        CommandLine.parseTokens (CommandLine.pairTokens pairs ++ [CommandLine.flagName f])
          args
        = Some (CommandLine.store f "" (CommandLine.storeAll pairs args))
        /\ CommandLine.parseTokens
             (CommandLine.pairTokens pairs ++ CommandLine.flagName f :: "" :: rest) args
           = CommandLine.parseTokens rest
               (CommandLine.store f "" (CommandLine.storeAll pairs args))
        /\ CommandLine.field f (CommandLine.store f "" (CommandLine.storeAll pairs args))
           = "").
Proof.
  intros Hall. split.
  - by rewrite parseTokens_pairs.
  - intros f Hf. rewrite !parseTokens_pairs by done. split; [|split].
    + cbn [CommandLine.parseTokens]. rewrite recognise_flagName. by destruct f.
    + cbn [CommandLine.parseTokens]. rewrite recognise_flagName.
      change (String.eqb "" "") with true. cbn iota.
      destruct f; try done; by destruct rest.
    + by apply field_store_same.
Qed.

(** A prefix given, then [--prefix] again as the last token. *)
Lemma X13_witness :
  CommandLine.parseTokens ["--prefix"; "a"; "--prefix"] CommandLine.noArgs
  = Some CommandLine.noArgs.
Proof.
  exact (proj1 (proj2 (X13_help_and_options_without_value
                  [(CommandLine.Prefix, "a")] [] CommandLine.noArgs
                  ltac:(repeat constructor; discriminate))
                  CommandLine.Prefix ltac:(discriminate))).
Defined.

(** X14: tokens that are none of the six option names change nothing,
    wherever the loop meets them in the place of an option: the reading goes
    on with the next token and the values gathered so far. *)
Theorem X14_unrecognised_tokens_are_passed_over
    (other rest : list string) (args : CommandLine.Args) :
  Forall (fun token => forall f, token <> CommandLine.flagName f) other ->
  CommandLine.parseTokens (other ++ rest) args = CommandLine.parseTokens rest args
  /\ CommandLine.parseTokens other args = Some args.
Proof.
  intros Hall.
  assert (Hgo : forall rest', CommandLine.parseTokens (other ++ rest') args
                              = CommandLine.parseTokens rest' args).
  { intros rest'. induction Hall as [|token other Htoken _ IH]; [done|].
    cbn [app CommandLine.parseTokens].
    destruct (CommandLine.recognise token) as [f|] eqn:Hrec; [|exact IH].
    apply recognise_Some in Hrec. by destruct (Htoken f). }
  split; [apply Hgo|]. rewrite <- (app_nil_r other) at 1. by rewrite Hgo.
Qed.

(** Two stray tokens before the prefix. *)
Lemma X14_witness :
  CommandLine.parseTokens (["-v"; "notes.txt"] ++ ["--prefix"; "a"]) CommandLine.noArgs
  = CommandLine.parseTokens ["--prefix"; "a"] CommandLine.noArgs.
Proof.
  refine (proj1 (X14_unrecognised_tokens_are_passed_over
                   ["-v"; "notes.txt"] ["--prefix"; "a"] CommandLine.noArgs _)).
  repeat constructor; intros f; destruct f; discriminate.
Defined.

(** * [main] as a whole *)



(** * Public names *)

(** X16: the public name of a definition, and with it the path of its
    source file, depends on the definition's name only through what
    [stripND] leaves of it: two definitions have the same public name, and
    the same source path, exactly when their names agree once the "ND_"
    prefix is removed.  So a definition named [ND_x] and one named [x] share
    one public name and one file. *)
Theorem X16_public_names_agree_with_stripped_names
    (outputPath argPrefix : string) (nodeDef1 nodeDef2 : NodeDef) :
  (LibsToOso.publicName argPrefix nodeDef1 = LibsToOso.publicName argPrefix nodeDef2
   <-> stripND (nd_name nodeDef1) = stripND (nd_name nodeDef2))
  /\ (sourcePath outputPath argPrefix nodeDef1 = sourcePath outputPath argPrefix nodeDef2
      <-> stripND (nd_name nodeDef1) = stripND (nd_name nodeDef2))
  /\ (nd_name nodeDef1 = "ND_" +:+ nd_name nodeDef2 ->
      nd_name nodeDef2 <> "" ->
      stripND (nd_name nodeDef2) = nd_name nodeDef2 ->
      LibsToOso.publicName argPrefix nodeDef1 = LibsToOso.publicName argPrefix nodeDef2).
Proof.
  assert (Hname : LibsToOso.publicName argPrefix nodeDef1
                  = LibsToOso.publicName argPrefix nodeDef2
                  <-> stripND (nd_name nodeDef1) = stripND (nd_name nodeDef2)).
  { unfold LibsToOso.publicName. destruct (negb (String.eqb argPrefix "")).
    - split; [|by intros ->]. intros Heq.
      apply (inj (String.app argPrefix)) in Heq.
      by apply (inj (String.app "_")) in Heq.
    - done. }
  split; [exact Hname|]. split.
  - rewrite <- Hname. unfold sourcePath, LibsToOso.oslFilePath. split; [|by intros ->].
    intros Heq. apply (inj (String.app outputPath)) in Heq.
    apply (inj (String.app "/")) in Heq.
    assert (Hlen : String.length (LibsToOso.publicName argPrefix nodeDef1)
                   = String.length (LibsToOso.publicName argPrefix nodeDef2)).
    { apply (f_equal String.length) in Heq. rewrite !string_length_app in Heq. lia. }
    revert Heq Hlen.
    generalize (LibsToOso.publicName argPrefix nodeDef1),
               (LibsToOso.publicName argPrefix nodeDef2).
    intros n1. induction n1 as [|a n1 IH]; intros [|b n2] Heq Hlen; try done.
    change (String a (n1 +:+ ".osl") = String b (n2 +:+ ".osl")) in Heq.
    injection Heq as -> Heq. f_equal. apply IH; [done|].
    cbn [String.length] in Hlen. lia.
  - intros Hname1 Hne Hkeep. apply Hname.
    rewrite Hname1, Hkeep. by apply stripND_prefixed.
Qed.

(** The definitions ND_image and image under the prefix "mx". *)
Lemma X16_witness :
  LibsToOso.publicName "mx" {| nd_name := "ND_image"; nd_implementations := ∅ |}
  = LibsToOso.publicName "mx" {| nd_name := "image"; nd_implementations := ∅ |}.
Proof.
  exact (proj2 (proj2 (X16_public_names_agree_with_stripped_names "out" "mx"
                         {| nd_name := "ND_image"; nd_implementations := ∅ |}
                         {| nd_name := "image"; nd_implementations := ∅ |}))
           eq_refl ltac:(discriminate) eq_refl).
Defined.
